(** * Companies House ownership API: the ownership-tree builder

    A shallow embedding of [main.py]: the entity classifier
    ([determine_entity_type]), the recursive tree builder
    ([build_ownership_tree]), the node counter ([count_nodes]) and the
    request handler ([get_ownership_structure]), together with the two
    HTTP helpers they call ([search_company_by_name], [get_company_pscs]).

    Modelling conventions.
    - A Python [str] is a [string] whose characters are code points below
      256; [lower], [strip] and [in] follow Python on that range.
    - A provider record (a JSON object read with [dict.get]) is a record of
      optional fields: [None] is an absent key.
    - [Set[str]] is a [gset string]; the [errors] list and the [visited]
      set are mutable objects, so every function that receives them returns
      their final contents next to its result.
    - Recursion without a depth bound is a fixpoint on a fuel argument;
      [None] means the fuel ran out, never a Python result.
    - An exception is the [Raised] outcome; [try]/[except] is a match on
      the outcome. *)

From Stdlib Require Import String Ascii List Arith Lia Bool DecimalString DecimalNat.
From stdpp Require Import gmap strings list fin_maps.

Local Open Scope string_scope.
Local Open Scope nat_scope.

(** ** Python string primitives *)

Module Py.

(** [str.lower] on one code point below 256: A-Z and the upper-case
    Latin-1 letters (all of 192..222 but the multiplication sign 215)
    move up by 32. *)
Definition lower_char (c : ascii) : ascii :=
  let n := nat_of_ascii c in
  if ((65 <=? n) && (n <=? 90))
     || ((192 <=? n) && (n <=? 222) && negb (n =? 215))
  then ascii_of_nat (n + 32) else c.

Fixpoint lower (s : string) : string :=
  match s with
  | EmptyString => EmptyString
  | String c s' => String (lower_char c) (lower s')
  end.

(** [str.isspace] on one code point below 256. *)
Definition is_space (c : ascii) : bool :=
  let n := nat_of_ascii c in
  ((9 <=? n) && (n <=? 13)) || ((28 <=? n) && (n <=? 32))
  || (n =? 133) || (n =? 160).

Fixpoint lstrip (s : string) : string :=
  match s with
  | EmptyString => EmptyString
  | String c s' => if is_space c then lstrip s' else s
  end.

Fixpoint rstrip (s : string) : string :=
  match s with
  | EmptyString => EmptyString
  | String c s' =>
      match rstrip s' with
      | EmptyString => if is_space c then EmptyString else String c EmptyString
      | r => String c r
      end
  end.

(** [s.strip()] *)
Definition strip (s : string) : string := rstrip (lstrip s).

(** [sub in s] *)
Fixpoint contains (sub s : string) : bool :=
  String.prefix sub s ||
  match s with
  | EmptyString => false
  | String _ s' => contains sub s'
  end.

(** [x in [a, b, ...]] on strings *)
Definition in_list (x : string) (l : list string) : bool :=
  existsb (String.eqb x) l.

(** [str(n)] for a non-negative [int] *)
Definition str_of_nat (n : nat) : string :=
  NilEmpty.string_of_uint (Nat.to_uint n).

(** Truthiness of an optional string: [None] and [""] are false. *)
Definition truthy (o : option string) : bool :=
  match o with
  | Some (String _ _) => true
  | _ => false
  end.

(** [a or b] on optional strings. *)
Definition or_else (a b : option string) : option string :=
  if truthy a then a else b.

(** All characters of [s] are whitespace. *)
Fixpoint all_space (s : string) : bool :=
  match s with
  | EmptyString => true
  | String c s' => is_space c && all_space s'
  end.

End Py.

(** ** Outcomes of a call: a value, or an exception *)

Inductive exn : Type :=
| HTTPException (status_code : nat) (detail : string)
| Error (msg : string).

(** [str(e)] *)
Definition str_exn (e : exn) : string :=
  match e with
  | HTTPException status_code detail => Py.str_of_nat status_code +:+ ": " +:+ detail
  | Error msg => msg
  end.

Inductive outcome (A : Type) : Type :=
| Returned (a : A)
| Raised (e : exn).

Arguments Returned {A} a.
Arguments Raised {A} e.

(** ** Provider records *)

(** One entry of the [items] list of the persons-with-significant-control
    endpoint, read by the builder with [psc.get]. *)
Module Psc.

Record name_elements_t : Type := mk_name_elements {
  forename : option string;
  surname : option string
}.

Record identification_t : Type := mk_identification {
  registration_number : option string;
  country_registered : option string
}.

Record links_t : Type := mk_links {
  self : option string
}.

Record t : Type := mk {
  kind : option string;
  name : option string;
  name_elements : option name_elements_t;
  country_of_residence : option string;
  natures_of_control : option (list string);
  ceased_on : option string;
  identification : option identification_t;
  links : option links_t
}.

(** [psc.get("name_elements", {}).get(key, "")] *)
Definition name_element (key : name_elements_t -> option string) (psc : t) : string :=
  match name_elements psc with
  | Some ne => default "" (key ne)
  | None => ""
  end.

(** [psc.get("identification", {}).get(key)] *)
Definition identification_get (key : identification_t -> option string) (psc : t) : option string :=
  match identification psc with
  | Some i => key i
  | None => None
  end.

(** [psc.get("links", {}).get("self", dflt)] *)
Definition links_self (psc : t) (dflt : string) : string :=
  match links psc with
  | Some l => default dflt (self l)
  | None => dflt
  end.

End Psc.

(** One entry of the [items] list of the company search endpoint. *)
Module Company.

Record t : Type := mk {
  company_status : option string;
  title : option string;
  company_number : option string
}.

End Company.

(** What an HTTP GET does: a response with a status code and a decoded
    body ([data.get("items")], absent or a list), or an exception raised
    by the client (connection failure, timeout, undecodable body). *)
Inductive http_result (A : Type) : Type :=
| Response (status_code : nat) (items : option (list A))
| TransportError (msg : string).

Arguments Response {A} status_code items.
Arguments TransportError {A} msg.

(** The world outside the process: the configured API key and the two
    endpoints of the provider. *)
Record Env : Type := mkEnv {
  COMPANIES_HOUSE_API_KEY : option string;
  psc_endpoint : string -> http_result Psc.t;
  search_endpoint : string -> http_result Company.t
}.

(** ** Models *)

#[warnings="-register-all"]
Inductive PSCNode : Type := mkPSCNode {
  id : string;
  name : string;
  type : string;
  company_number : option string;
  country_of_residence : option string;
  nature_of_control : list string;
  children : list PSCNode;
  is_active : bool;
  error : option string
}.

(** Attribute assignments on a node. *)
Definition set_company_number (n : PSCNode) (v : string) : PSCNode :=
  mkPSCNode (id n) (name n) (type n) (Some v) (country_of_residence n)
    (nature_of_control n) (children n) (is_active n) (error n).

Definition set_children (n : PSCNode) (v : list PSCNode) : PSCNode :=
  mkPSCNode (id n) (name n) (type n) (company_number n) (country_of_residence n)
    (nature_of_control n) v (is_active n) (error n).

Definition set_error (n : PSCNode) (v : string) : PSCNode :=
  mkPSCNode (id n) (name n) (type n) (company_number n) (country_of_residence n)
    (nature_of_control n) (children n) (is_active n) (Some v).

(** [n.children.append(c)] *)
Definition append_child (n c : PSCNode) : PSCNode :=
  set_children n (children n ++ [c])%list.

(** The response of the ownership endpoint. The wall-clock field
    [processing_time] is left out of the model. *)
Record OwnershipResponse : Type := mkOwnershipResponse {
  root_company : PSCNode;
  total_nodes : nat;
  errors : list string
}.

(** ** The HTTP helpers *)

Section Service.

Variable env : Env.

(** [get_auth_headers]: raises when no API key is configured. The header
    value itself is read by nothing in the model. *)
Definition get_auth_headers : outcome unit :=
  if Py.truthy (COMPANIES_HOUSE_API_KEY env) then Returned tt
  else Raised (HTTPException 500 "API key not configured").

(** The body of the [try] block of [get_company_pscs]. *)
Definition get_company_pscs_try (company_number : string) : outcome (list Psc.t) :=
  match get_auth_headers with
  | Raised e => Raised e
  | Returned _ =>
      match psc_endpoint env company_number with
      | TransportError msg => Raised (Error msg)
      | Response status_code items =>
          if status_code =? 200 then Returned (default [] items)
          else if status_code =? 404 then Returned []
          else Returned []
      end
  end.

(** [get_company_pscs]: every exception of the body is logged and turned
    into the empty list. *)
Definition get_company_pscs (company_number : string) : outcome (list Psc.t) :=
  match get_company_pscs_try company_number with
  | Returned items => Returned items
  | Raised _ => Returned []
  end.

Definition is_active_company (company : Company.t) : bool :=
  bool_decide (Company.company_status company = Some "active").

(** The body of the [try] block of [search_company_by_name]. *)
Definition search_company_by_name_try (company_name : string) : outcome (option Company.t) :=
  match get_auth_headers with
  | Raised e => Raised e
  | Returned _ =>
      match search_endpoint env company_name with
      | TransportError msg => Raised (Error msg)
      | Response status_code items =>
          if status_code =? 200 then
            let companies := default [] items in
            match List.find (fun company =>
                     is_active_company company
                     && Py.contains (Py.lower company_name)
                          (Py.lower (default "" (Company.title company))))
                    companies with
            | Some company => Returned (Some company)
            | None =>
                match List.find is_active_company companies with
                | Some company => Returned (Some company)
                | None => Returned None
                end
            end
          else Returned None
      end
  end.

Definition search_company_by_name (company_name : string) : outcome (option Company.t) :=
  match search_company_by_name_try company_name with
  | Returned r => Returned r
  | Raised _ => Returned None
  end.

(** ** The entity classifier *)

Definition uk_countries : list string :=
  ["england"; "wales"; "scotland"; "northern ireland"; "united kingdom"; "uk"].

Definition determine_entity_type (psc : Psc.t) : string :=
  let kind := default "" (Psc.kind psc) in
  if Py.contains "individual" kind then "individual"
  else if Py.contains "corporate-entity" kind || Py.contains "legal-person" kind then
    let country :=
      Py.or_else (Psc.country_of_residence psc)
                 (Psc.identification_get Psc.country_registered psc) in
    if Py.truthy country && Py.in_list (Py.lower (default "" country)) uk_countries
    then "uk_company"
    else "non_uk_company"
  else "individual".

(** ** The tree builder *)

(** The display name of a record:
    [psc.get("name") or forename + " " + surname]. *)
Definition psc_display_name (psc : Psc.t) : string :=
  if Py.truthy (Psc.name psc) then default "" (Psc.name psc)
  else Psc.name_element Psc.forename psc +:+ " " +:+ Psc.name_element Psc.surname psc.

(** The node made for a record before any expansion, when the parent has
    [n] children so far. *)
Definition new_psc_node (psc : Psc.t) (n : nat) : PSCNode :=
  {| id := Psc.links_self psc ("psc_" +:+ Py.str_of_nat n);
     name := Py.strip (psc_display_name psc);
     type := determine_entity_type psc;
     company_number := None;
     country_of_residence := Psc.country_of_residence psc;
     nature_of_control := default [] (Psc.natures_of_control psc);
     children := [];
     is_active := true;
     error := None |}.

(** The result of a call of the builder: what it returns or raises, and
    the final contents of the [visited] set and of the [errors] list it
    was given. *)
Definition build_result : Type := outcome PSCNode * gset string * list string.

Definition builder : Type :=
  string -> string -> gset string -> list string -> nat -> option build_result.

(** The body of [if psc_type == "uk_company":] for one record: the node,
    possibly expanded, and the [errors] list afterwards. [self] is the
    recursive call; it receives [visited.copy()], whose final contents
    are dropped with the copy. *)
Definition expand_psc (self : builder) (psc : Psc.t) (psc_node : PSCNode)
    (visited : gset string) (errors : list string) (depth : nat)
  : option (PSCNode * list string) :=
  if String.eqb (type psc_node) "uk_company" then
    let psc_company_number := Psc.identification_get Psc.registration_number psc in
    if Py.truthy psc_company_number then
      let number := default "" psc_company_number in
      let psc_node := set_company_number psc_node number in
      let visited_copy := visited in
      match self number (Py.strip (psc_display_name psc)) visited_copy errors (depth + 1) with
      | None => None
      | Some (Returned child_tree, _, errors) =>
          Some (set_children psc_node (children child_tree), errors)
      | Some (Raised e, _, errors) =>
          let error_msg := "Error processing company " +:+ number +:+ ": " +:+ str_exn e in
          Some (set_error psc_node error_msg, (errors ++ [error_msg])%list)
      end
    else Some (psc_node, errors)
  else Some (psc_node, errors).

(** The [for psc in pscs:] loop. *)
Fixpoint process_pscs (self : builder) (pscs : list Psc.t) (root_node : PSCNode)
    (visited : gset string) (errors : list string) (depth : nat)
  : option (PSCNode * list string) :=
  match pscs with
  | [] => Some (root_node, errors)
  | psc :: rest =>
      match Psc.ceased_on psc with
      | Some _ => process_pscs self rest root_node visited errors depth
      | None =>
          let psc_node := new_psc_node psc (length (children root_node)) in
          match expand_psc self psc psc_node visited errors depth with
          | None => None
          | Some (psc_node, errors) =>
              process_pscs self rest (append_child root_node psc_node) visited errors depth
          end
      end
  end.

Fixpoint build_ownership_tree (fuel : nat) (company_number company_name : string)
    (visited : gset string) (errors : list string) (depth : nat)
  : option build_result :=
  match fuel with
  | 0 => None
  | S fuel =>
      if bool_decide (company_number ∈ visited) then
        Some (Returned {| id := company_number;
                          name := company_name +:+ " (circular reference)";
                          type := "uk_company";
                          company_number := Some company_number;
                          country_of_residence := None;
                          nature_of_control := [];
                          children := [];
                          is_active := true;
                          error := Some "Circular reference detected" |},
              visited, errors)
      else
        let visited := {[company_number]} ∪ visited in
        let root_node :=
          {| id := company_number;
             name := company_name;
             type := "uk_company";
             company_number := Some company_number;
             country_of_residence := None;
             nature_of_control := [];
             children := [];
             is_active := true;
             error := None |} in
        match get_company_pscs company_number with
        | Raised e =>
            let error_msg :=
              "Error processing PSCs for " +:+ company_number +:+ ": " +:+ str_exn e in
            Some (Returned (set_error root_node error_msg), visited, (errors ++ [error_msg])%list)
        | Returned pscs =>
            match process_pscs (build_ownership_tree fuel) pscs root_node visited errors depth with
            | None => None
            | Some (root_node, errors) => Some (Returned root_node, visited, errors)
            end
        end
  end.

(** ** The node counter *)

Fixpoint count_nodes (node : PSCNode) : nat :=
  fold_left (fun count child => count + count_nodes child) (children node) 1.

(** ** The request handler *)

Inductive reply : Type :=
| Ok (response : OwnershipResponse)
| HttpError (status_code : nat) (detail : string).

(** The two [except] clauses of [get_ownership_structure]: an
    [HTTPException] goes through, anything else becomes a 500. *)
Definition reply_of_exn (e : exn) : reply :=
  match e with
  | HTTPException status_code detail => HttpError status_code detail
  | Error msg => HttpError 500 ("Internal server error: " +:+ msg)
  end.

(** The message of the validation error raised by [PSCNode(name=None)];
    its text belongs to the validation library. *)
Variable name_validation_error : string.

Definition get_ownership_structure (fuel : nat) (request_company_name : string)
  : option reply :=
  match search_company_by_name request_company_name with
  | Raised e => Some (reply_of_exn e)
  | Returned None =>
      Some (HttpError 404 ("Company '" +:+ request_company_name +:+ "' not found"))
  | Returned (Some company_info) =>
      let company_number := Company.company_number company_info in
      let company_name := Company.title company_info in
      if negb (Py.truthy company_number) then
        Some (HttpError 400 "Could not determine company number")
      else
        match company_name with
        | None => Some (reply_of_exn (Error name_validation_error))
        | Some company_name =>
            match build_ownership_tree fuel (default "" company_number) company_name ∅ [] 0 with
            | None => None
            | Some (Raised e, _, _) => Some (reply_of_exn e)
            | Some (Returned ownership_tree, _, errors) =>
                Some (Ok {| root_company := ownership_tree;
                            total_nodes := count_nodes ownership_tree;
                            errors := errors |})
            end
        end
  end.

End Service.

(** ** The classifier as the specification words it *)

(** [sub] occurs in [s]. *)
Definition is_substring (sub s : string) : Prop :=
  exists a b, s = a +:+ sub +:+ b.

(** The country the classifier inspects: the country of residence when
    the record has a non-empty one, the identification's registered
    country otherwise. *)
Definition inspected_country (psc : Psc.t) : option string :=
  match Psc.country_of_residence psc with
  | Some (String c s) => Some (String c s)
  | _ => Psc.identification_get Psc.country_registered psc
  end.

(** The six names of the specification. *)
Definition uk_names : list string :=
  ["england"; "wales"; "scotland"; "northern ireland"; "united kingdom"; "uk"].

(** The capital of a small letter a-z; any other character is its own. *)
Definition capital_of (b : ascii) : ascii :=
  let n := nat_of_ascii b in
  if (97 <=? n) && (n <=? 122) then ascii_of_nat (n - 32) else b.

(** [c] is the small-letter name [u] with any of its letters
    capitalised: the two differ in letter case at most. *)
Fixpoint equal_ignoring_case (c u : string) : Prop :=
  match c, u with
  | EmptyString, EmptyString => True
  | String a c', String b u' =>
      (a = b \/ a = capital_of b) /\ equal_ignoring_case c' u'
  | _, _ => False
  end.

(** Small letters and the space: the characters of the six names. *)
Definition plain_char (b : ascii) : bool :=
  let n := nat_of_ascii b in
  ((97 <=? n) && (n <=? 122)) || (n =? 32).

(** A string of small letters and spaces. *)
Fixpoint plain (u : string) : bool :=
  match u with
  | EmptyString => true
  | String b u' => plain_char b && plain u'
  end.

(** The country is present and is one of the six names, letter case
    ignored. *)
Definition is_uk_country (country : option string) : Prop :=
  exists c u, country = Some c /\ In u uk_names /\ equal_ignoring_case c u.

Inductive classify_spec (psc : Psc.t) : string -> Prop :=
| classify_individual :
    is_substring "individual" (default "" (Psc.kind psc)) ->
    classify_spec psc "individual"
| classify_uk_company :
    ~ is_substring "individual" (default "" (Psc.kind psc)) ->
    is_substring "corporate-entity" (default "" (Psc.kind psc))
    \/ is_substring "legal-person" (default "" (Psc.kind psc)) ->
    is_uk_country (inspected_country psc) ->
    classify_spec psc "uk_company"
| classify_non_uk_company :
    ~ is_substring "individual" (default "" (Psc.kind psc)) ->
    is_substring "corporate-entity" (default "" (Psc.kind psc))
    \/ is_substring "legal-person" (default "" (Psc.kind psc)) ->
    ~ is_uk_country (inspected_country psc) ->
    classify_spec psc "non_uk_company"
| classify_fallback :
    ~ is_substring "individual" (default "" (Psc.kind psc)) ->
    ~ is_substring "corporate-entity" (default "" (Psc.kind psc)) ->
    ~ is_substring "legal-person" (default "" (Psc.kind psc)) ->
    classify_spec psc "individual".

(** ** Trees *)

(** All nodes of a tree, the root first. *)
Fixpoint nodes (n : PSCNode) : list PSCNode :=
  n :: flat_map nodes (children n).

(** The nodes strictly below the root. *)
Definition descendants (n : PSCNode) : list PSCNode :=
  flat_map nodes (children n).

(** Follow child positions down from [t]: the node reached, and the
    company numbers of the nodes passed on the way (the root's first). *)
Fixpoint descend (idxs : list nat) (t : PSCNode) : option (list string * PSCNode) :=
  match idxs with
  | [] => Some ([], t)
  | i :: rest =>
      match children t !! i, company_number t with
      | Some c, Some number =>
          match descend rest c with
          | Some (anc, n) => Some (number :: anc, n)
          | None => None
          end
      | _, _ => None
      end
  end.

(** ** Where the nodes of a built tree come from *)

(** A record that is still in effect: [psc.get("ceased_on") is None]. *)
Definition not_ceased (psc : Psc.t) : Prop := Psc.ceased_on psc = None.

#[global] Instance not_ceased_dec (psc : Psc.t) : Decision (not_ceased psc).
Proof. unfold not_ceased. apply _. Defined.

(** [psc] is an item of some list the fetch helper returns. *)
Definition fetched (env : Env) (psc : Psc.t) : Prop :=
  exists company_number pscs,
    get_company_pscs env company_number = Returned pscs /\ psc ∈ pscs.

(** The nodes the loop makes: the fresh node of a record still in effect,
    or that node with the registration number and an adopted child list. *)
Inductive psc_node_shape (env : Env) : PSCNode -> Prop :=
| shape_leaf psc k :
    fetched env psc -> not_ceased psc ->
    psc_node_shape env (new_psc_node psc k)
| shape_expanded psc k number cs :
    fetched env psc -> not_ceased psc ->
    determine_entity_type psc = "uk_company" ->
    Psc.identification_get Psc.registration_number psc = Some number ->
    number <> "" ->
    psc_node_shape env
      (set_children (set_company_number (new_psc_node psc k) number) cs).

(** [node] is what the loop body makes of [psc] for some position and
    some contents of the [errors] list. *)
Definition child_of (self : builder) (visited : gset string) (depth : nat)
    (psc : Psc.t) (node : PSCNode) : Prop :=
  exists k errors errors',
    expand_psc self psc (new_psc_node psc k) visited errors depth = Some (node, errors').

(** What a child node shows of its record. *)
Definition node_of_record (psc : Psc.t) (node : PSCNode) : Prop :=
  name node = Py.strip (psc_display_name psc)
  /\ type node = determine_entity_type psc
  /\ country_of_residence node = Psc.country_of_residence psc
  /\ nature_of_control node = default [] (Psc.natures_of_control psc).

(** ** A provider given by a finite map *)

(** The endpoint of a provider that knows the companies of [m] and
    answers 404 for all others. *)
Definition endpoint_of_map (m : gmap string (http_result Psc.t)) (company_number : string)
  : http_result Psc.t :=
  default (Response 404 None) (m !! company_number).


(** ** Worked scenarios *)

Module Scenario.

Definition corporate (nm reg country : string) : Psc.t :=
  Psc.mk (Some "corporate-entity-person-with-significant-control") (Some nm) None
    None (Some ["ownership-of-shares-75-to-100-percent"]) None
    (Some (Psc.mk_identification (Some reg) (Some country))) None.

Definition person (nm : string) : Psc.t :=
  Psc.mk (Some "individual-person-with-significant-control") (Some nm) None
    (Some "England") (Some ["ownership-of-shares-25-to-50-percent"]) None None None.

Definition acme : Company.t :=
  Company.mk (Some "active") (Some "Acme Ltd") (Some "001").

Definition search (q : string) : http_result Company.t := Response 200 (Some [acme]).

(** "001" is controlled by one individual and by the UK company "002",
    which has no controlling parties. *)
Definition plain : Env :=
  mkEnv (Some "key")
    (fun cn => if String.eqb cn "001"
               then Response 200 (Some [person "Jane Doe"; corporate "Holding Ltd" "002" "England"])
               else Response 200 (Some []))
    search.

(** The fetch for "001" fails in transport. *)
Definition broken : Env :=
  mkEnv (Some "key") (fun cn => TransportError "connection reset") search.

(** "001" is controlled by "002", which is controlled by "001". *)
Definition cycle : Env :=
  mkEnv (Some "key")
    (fun cn => if String.eqb cn "001" then Response 200 (Some [corporate "Holding Ltd" "002" "England"])
               else if String.eqb cn "002" then Response 200 (Some [corporate "Acme Ltd" "001" "England"])
               else Response 404 None)
    search.

(** "001" is controlled by a record that has neither a name nor name
    elements. *)
Definition nameless : Env :=
  mkEnv (Some "key")
    (fun cn => if String.eqb cn "001"
               then Response 200 (Some [Psc.mk (Some "individual-person-with-significant-control")
                                           None None None None None None None])
               else Response 404 None)
    search.

(** "001" is controlled by a record whose [ceased_on] is the empty
    string. *)
Definition ceased_empty : Env :=
  mkEnv (Some "key")
    (fun cn => if String.eqb cn "001"
               then Response 200 (Some [Psc.mk (Some "individual-person-with-significant-control")
                                           (Some "Jane Doe") None None None (Some "") None None])
               else Response 404 None)
    search.

(** "001" is controlled by "002" and "003", each controlled by "004",
    which is controlled by one individual. *)
Definition diamond : Env :=
  mkEnv (Some "key")
    (endpoint_of_map
       (<["001" := Response 200 (Some [corporate "Left Ltd" "002" "England";
                                       corporate "Right Ltd" "003" "Wales"])]>
        (<["002" := Response 200 (Some [corporate "Common Ltd" "004" "UK"])]>
         (<["003" := Response 200 (Some [corporate "Common Ltd" "004" "UK"])]>
          (<["004" := Response 200 (Some [person "Jane Doe"])]> ∅)))))
    search.

(** An active company whose title does not contain "acme". *)
Definition other : Company.t :=
  Company.mk (Some "active") (Some "Other Plc") (Some "777").

(** The search answers with [other] first and [acme] second. *)
Definition two_companies : Env :=
  mkEnv (Some "key") (fun cn => Response 404 None)
    (fun q => Response 200 (Some [other; acme])).

(** No API key is configured. *)
Definition no_key : Env :=
  mkEnv None
    (fun cn => Response 200 (Some [person "Jane Doe"]))
    search.

(** "001" is controlled by three individuals; the second has ceased and
    the third has a self link. *)
Definition three_people : Env :=
  mkEnv (Some "key")
    (fun cn => if String.eqb cn "001"
               then Response 200
                      (Some [person "Ann";
                             Psc.mk (Some "individual-person-with-significant-control")
                               (Some "Bob") None None None (Some "2020-01-01") None None;
                             person "Cy";
                             Psc.mk (Some "individual-person-with-significant-control")
                               (Some "Di") None None None None None
                               (Some (Psc.mk_links (Some "/company/001/psc/di")))])
               else Response 404 None)
    search.

(** The tree of [diamond]: "004" is expanded under both branches. *)
Definition diamond_tree : PSCNode :=
  let common :=
    mkPSCNode "psc_0" "Common Ltd" "uk_company" (Some "004") None
      ["ownership-of-shares-75-to-100-percent"]
      [mkPSCNode "psc_0" "Jane Doe" "individual" None (Some "England")
         ["ownership-of-shares-25-to-50-percent"] [] true None]
      true None in
  mkPSCNode "001" "Acme Ltd" "uk_company" (Some "001") None []
    [mkPSCNode "psc_0" "Left Ltd" "uk_company" (Some "002") None
       ["ownership-of-shares-75-to-100-percent"] [common] true None;
     mkPSCNode "psc_1" "Right Ltd" "uk_company" (Some "003") None
       ["ownership-of-shares-75-to-100-percent"] [common] true None]
    true None.

(** The tree built for "001" from an empty set and an empty list. *)
Definition run (env : Env) : option PSCNode :=
  match build_ownership_tree env 5 "001" "Acme Ltd" ∅ [] 0 with
  | Some (Returned t, _, _) => Some t
  | _ => None
  end.

End Scenario.

(** ** Height *)

(** The number of nodes on the longest path from the root down. *)
Fixpoint height (n : PSCNode) : nat :=
  S (fold_right Nat.max 0 (map height (children n))).

(** Two optional strings that differ in letter case only. *)
Definition same_up_to_case (a b : option string) : Prop :=
  Py.lower <$> a = Py.lower <$> b.

(** A builder whose node and set do not depend on the [errors] list and
    the depth it is given. *)
Definition errors_blind (self : builder) : Prop :=
  forall cn nm vs e1 d1 o v e1',
    self cn nm vs e1 d1 = Some (o, v, e1') ->
    forall e2 d2, exists e2', self cn nm vs e2 d2 = Some (o, v, e2').

(** ** The search policy *)

(** The test of the first loop of [search_company_by_name]: an active
    company whose title contains the query, letter case ignored. *)
Definition name_match (company_name : string) (company : Company.t) : bool :=
  is_active_company company
  && Py.contains (Py.lower company_name)
       (Py.lower (default "" (Company.title company))).

(** The three type tags a node can carry. *)
Definition entity_types : list string :=
  ["individual"; "uk_company"; "non_uk_company"].


(** The self link of a record: [psc.get("links", {}).get("self")]. *)
Definition self_link (psc : Psc.t) : option string :=
  match Psc.links psc with
  | Some l => Psc.self l
  | None => None
  end.


(** [n] is the node the loop body makes of the record [psc]: the fresh
    node, or the fresh node with the record's registration number and an
    adopted child list. *)
Definition made_from (psc : Psc.t) (n : PSCNode) : Prop :=
  exists k,
    n = new_psc_node psc k
    \/ exists number cs,
        determine_entity_type psc = "uk_company"
        /\ Psc.identification_get Psc.registration_number psc = Some number
        /\ number <> ""
        /\ n = set_children (set_company_number (new_psc_node psc k) number) cs.


(** * Proofs *)

(** ** The string primitives on examples *)

Example lower_ex : Py.lower "Northern IRELAND" = "northern ireland".
Proof. reflexivity. Qed.

Example strip_ex : Py.strip "  Jane  Doe " = "Jane  Doe".
Proof. reflexivity. Qed.

Example contains_ex :
  Py.contains "individual" "individual-person-with-significant-control" = true
  /\ Py.contains "corporate-entity" "Corporate-Entity" = false.
Proof. split; reflexivity. Qed.

Example str_of_nat_ex : Py.str_of_nat 12 = "12" /\ Py.str_of_nat 0 = "0".
Proof. split; reflexivity. Qed.


(** ** Strings *)

Lemma append_cons (c : ascii) (s t : string) : String c s +:+ t = String c (s +:+ t).
Proof. reflexivity. Qed.

Lemma append_empty_l (t : string) : "" +:+ t = t.
Proof. reflexivity. Qed.

Lemma prefix_spec (sub s : string) :
  String.prefix sub s = true <-> exists b, s = sub +:+ b.
Proof.
  revert s. induction sub as [|x sub IH]; intros [|y s]; simpl.
  - split; [intros _; now exists "" | reflexivity].
  - split; [intros _; now exists (String y s) | reflexivity].
  - split; [discriminate | intros [b Hb]; rewrite append_cons in Hb; discriminate].
  - destruct (ascii_dec x y) as [->|Hne].
    + rewrite IH. split; intros [b Hb]; exists b; rewrite append_cons in *; congruence.
    + split; [discriminate | intros [b Hb]; rewrite append_cons in Hb; congruence].
Qed.

Lemma contains_spec (sub s : string) :
  Py.contains sub s = true <-> is_substring sub s.
Proof.
  unfold is_substring. induction s as [|y s IH].
  - destruct sub as [|x sub]; simpl.
    + split; [intros _; now exists "", "" | reflexivity].
    + split; [discriminate|].
      intros ([|z a] & b & Hb); rewrite ?append_empty_l, ?append_cons in Hb; discriminate.
  - cbn [Py.contains]. rewrite orb_true_iff, prefix_spec, IH. split.
    + intros [[b Hb] | (a & b & Hab)].
      * now exists "", b.
      * exists (String y a), b. rewrite append_cons. now rewrite Hab.
    + intros ([|x a] & b & Hab).
      * left. now exists b.
      * right. exists a, b. rewrite append_cons in Hab. congruence.
Qed.

Lemma contains_false (sub s : string) :
  Py.contains sub s = false <-> ~ is_substring sub s.
Proof. rewrite <- contains_spec. destruct (Py.contains sub s); intuition congruence. Qed.

Lemma in_list_spec (x : string) (l : list string) :
  Py.in_list x l = true <-> In x l.
Proof.
  unfold Py.in_list. rewrite existsb_exists. split.
  - intros (y & Hy & Heq). apply String.eqb_eq in Heq. now subst.
  - intros H. exists x. split; [assumption | apply String.eqb_refl].
Qed.

Lemma ascii_enum (a : ascii) : In a (map ascii_of_nat (seq 0 256)).
Proof.
  rewrite <- (ascii_nat_embedding a). apply in_map, in_seq.
  pose proof (nat_ascii_bounded a). lia.
Qed.

Lemma lower_char_table :
  forallb (fun a =>
             forallb (fun b =>
                        implb (plain_char b)
                          (Bool.eqb (Ascii.eqb (Py.lower_char a) b)
                             (Ascii.eqb a b || Ascii.eqb a (capital_of b))))
               (map ascii_of_nat (seq 0 256)))
    (map ascii_of_nat (seq 0 256)) = true.
Proof. vm_compute. reflexivity. Qed.

Lemma lower_char_plain (a b : ascii) :
  plain_char b = true ->
  Py.lower_char a = b <-> a = b \/ a = capital_of b.
Proof.
  intros Hb. pose proof lower_char_table as H.
  rewrite forallb_forall in H. specialize (H a (ascii_enum a)).
  rewrite forallb_forall in H. specialize (H b (ascii_enum b)).
  rewrite Hb in H. cbn [implb] in H. apply Bool.eqb_prop in H.
  rewrite <- Ascii.eqb_eq, H, orb_true_iff, !Ascii.eqb_eq. reflexivity.
Qed.

Lemma lower_plain (c u : string) :
  plain u = true -> Py.lower c = u <-> equal_ignoring_case c u.
Proof.
  revert u. induction c as [|a c IH]; intros [|b u]; simpl; try (intuition congruence).
  intros Hp. apply andb_true_iff in Hp as [Hb Hu].
  rewrite <- (IH u Hu), <- (lower_char_plain a b Hb). split.
  - intros [= Ha Hc]. auto.
  - intros [Ha Hc]. congruence.
Qed.

Lemma uk_names_plain (u : string) : In u uk_names -> plain u = true /\ u <> "".
Proof.
  simpl. intros H. repeat destruct H as [<-|H]; try (split; [reflexivity | discriminate]).
  destruct H.
Qed.

Lemma uk_countries_names : uk_countries = uk_names.
Proof. reflexivity. Qed.

Lemma truthy_inspected (psc : Psc.t) :
  Py.or_else (Psc.country_of_residence psc)
    (Psc.identification_get Psc.country_registered psc) = inspected_country psc.
Proof.
  unfold Py.or_else, inspected_country.
  destruct (Psc.country_of_residence psc) as [[|c s]|]; reflexivity.
Qed.

Lemma uk_test_spec (country : option string) :
  Py.truthy country && Py.in_list (Py.lower (default "" country)) uk_countries = true
  <-> is_uk_country country.
Proof.
  unfold is_uk_country. rewrite andb_true_iff, in_list_spec, uk_countries_names. split.
  - intros [Ht Hin]. destruct country as [c|]; [|discriminate].
    exists c, (Py.lower c). repeat split; [assumption|].
    apply lower_plain; [now apply uk_names_plain | reflexivity].
  - intros (c & u & -> & Hu & He).
    destruct (uk_names_plain u Hu) as [Hp Hne].
    apply (lower_plain c u Hp) in He. change (default "" (Some c)) with c.
    rewrite He. split; [|assumption].
    destruct c; [|reflexivity]. simpl in He. congruence.
Qed.

Lemma determine_entity_type_meets_spec (psc : Psc.t) :
  classify_spec psc (determine_entity_type psc).
Proof.
  unfold determine_entity_type. rewrite truthy_inspected.
  destruct (Py.contains "individual" _) eqn:Hi.
  - apply classify_individual. now apply contains_spec.
  - apply contains_false in Hi.
    destruct (Py.contains "corporate-entity" _) eqn:Hc;
      [|destruct (Py.contains "legal-person" _) eqn:Hl]; cbn [orb].
    1,2: destruct (Py.truthy _ && _) eqn:Hu;
         [ apply classify_uk_company | apply classify_non_uk_company ]; try assumption;
         try (left; now apply contains_spec); try (right; now apply contains_spec);
         try (now apply uk_test_spec);
         rewrite <- uk_test_spec; congruence.
    apply classify_fallback; [assumption | now apply contains_false ..].
Qed.

Lemma classify_spec_functional (psc : Psc.t) (t1 t2 : string) :
  classify_spec psc t1 -> classify_spec psc t2 -> t1 = t2.
Proof. intros H1 H2. destruct H1, H2; try reflexivity; tauto. Qed.

(** C5, counterexample. The country of residence is "France" and the
    registered country "England": the registered country is one of the
    six names, yet the classifier looks at the residence alone and
    answers non_uk_company. *)
Lemma registered_country_not_inspected :
  let r := Psc.mk (Some "corporate-entity-person-with-significant-control")
             (Some "Holding Ltd") None (Some "France") None None
             (Some (Psc.mk_identification (Some "002") (Some "England"))) None in
  Psc.country_of_residence r = Some "France"
  /\ Psc.identification_get Psc.country_registered r = Some "England"
  /\ is_uk_country (Psc.identification_get Psc.country_registered r)
  /\ determine_entity_type r = "non_uk_company"
  /\ determine_entity_type r <> "uk_company".
Proof.
  cbv zeta. split; [reflexivity|]. split; [reflexivity|]. split.
  - exists "England", "england". split; [reflexivity|]. split; [now left|].
    cbn. repeat split; auto.
  - split; [reflexivity | discriminate].
Qed.

(** C5, as amended. For every raw record, the classifier returns the
    type prescribed here, and no other: individual when the kind tag
    contains "individual"; otherwise, when it contains "corporate-entity"
    or "legal-person", uk_company when the one country it inspects (the
    country of residence when that is present and not empty, the
    identification's registered country only otherwise) is one of
    england, wales, scotland, northern ireland, united kingdom and uk up
    to letter case, and non_uk_company when it is not or when there is
    none; individual for every other kind tag. *)
Theorem determine_entity_type_spec (psc : Psc.t) (t : string) :
  classify_spec psc t <-> determine_entity_type psc = t.
Proof.
  split.
  - intros H. eapply classify_spec_functional; [apply determine_entity_type_meets_spec | exact H].
  - intros <-. apply determine_entity_type_meets_spec.
Qed.

(** ** Letter case *)

Lemma lower_empty (s : string) : Py.lower s = "" <-> s = "".
Proof. destruct s; simpl; split; intros H; congruence. Qed.

Lemma same_up_to_case_truthy (a b : option string) :
  same_up_to_case a b -> Py.truthy a = Py.truthy b.
Proof.
  unfold same_up_to_case.
  destruct a as [[|x a]|], b as [[|y b]|]; simpl; intros H; congruence.
Qed.

Lemma same_up_to_case_or_else (a a' b b' : option string) :
  same_up_to_case a a' -> same_up_to_case b b' ->
  same_up_to_case (Py.or_else a b) (Py.or_else a' b').
Proof.
  intros Ha Hb. unfold Py.or_else.
  rewrite (same_up_to_case_truthy _ _ Ha). now destruct (Py.truthy a').
Qed.

Lemma same_up_to_case_default (a b : option string) :
  same_up_to_case a b -> Py.lower (default "" a) = Py.lower (default "" b).
Proof.
  unfold same_up_to_case. destruct a, b; simpl; intros H; congruence.
Qed.

(** C6, as amended. The classifier ignores letter case in the two
    country strings only: two records with the same kind tag whose
    countries of residence and registered countries differ in letter case
    alone get the same type. (The kind tag is matched as written.) *)
Theorem determine_entity_type_country_case (r r' : Psc.t) :
  Psc.kind r = Psc.kind r' ->
  same_up_to_case (Psc.country_of_residence r) (Psc.country_of_residence r') ->
  same_up_to_case (Psc.identification_get Psc.country_registered r)
                  (Psc.identification_get Psc.country_registered r') ->
  determine_entity_type r = determine_entity_type r'.
Proof.
  intros Hk Hc Hi. unfold determine_entity_type. rewrite Hk.
  pose proof (same_up_to_case_or_else _ _ _ _ Hc Hi) as Ho.
  rewrite (same_up_to_case_truthy _ _ Ho), (same_up_to_case_default _ _ Ho).
  reflexivity.
Qed.

Lemma determine_entity_type_country_case_witness :
  determine_entity_type (Scenario.corporate "Holding Ltd" "002" "ENGLAND")
  = determine_entity_type (Scenario.corporate "Holding Ltd" "002" "England").
Proof.
  apply determine_entity_type_country_case; reflexivity.
Defined.

(** C6, counterexample. Two records that differ only in the letter case
    of the kind tag: the mixed-case one falls through to the fallback. *)
Lemma determine_entity_type_kind_case_sensitive :
  let r := Psc.mk (Some "Corporate-Entity") (Some "Holding Ltd") None
             (Some "England") None None None None in
  let r' := Psc.mk (Some "corporate-entity") (Some "Holding Ltd") None
              (Some "England") None None None None in
  same_up_to_case (Psc.kind r) (Psc.kind r')
  /\ same_up_to_case (Psc.country_of_residence r) (Psc.country_of_residence r')
  /\ determine_entity_type r = "individual"
  /\ determine_entity_type r' = "uk_company"
  /\ determine_entity_type r <> determine_entity_type r'.
Proof. repeat split; discriminate. Qed.

(** ** Whitespace trimming *)

Lemma lstrip_empty (s : string) : Py.lstrip s = "" <-> Py.all_space s = true.
Proof.
  induction s as [|c s IH]; simpl; [tauto|].
  destruct (Py.is_space c); simpl; [assumption | split; discriminate].
Qed.

Lemma rstrip_empty (s : string) : Py.rstrip s = "" <-> Py.all_space s = true.
Proof.
  induction s as [|c s IH]; simpl; [tauto|].
  destruct (Py.rstrip s) eqn:Hr.
  - destruct (Py.is_space c); simpl; [tauto | split; discriminate].
  - split; [discriminate|]. intros H. apply andb_true_iff in H as [_ H].
    apply IH in H. discriminate.
Qed.

Lemma all_space_lstrip (s : string) :
  Py.all_space (Py.lstrip s) = Py.all_space s.
Proof.
  induction s as [|c s IH]; simpl; [reflexivity|].
  destruct (Py.is_space c) eqn:Hc; simpl; [assumption | now rewrite Hc].
Qed.

Lemma strip_empty (s : string) : Py.strip s = "" <-> Py.all_space s = true.
Proof. unfold Py.strip. now rewrite rstrip_empty, all_space_lstrip. Qed.

Lemma rstrip_cons (c : ascii) (s : string) :
  Py.rstrip (String c s) =
  match Py.rstrip s with
  | "" => if Py.is_space c then "" else String c ""
  | r => String c r
  end.
Proof. reflexivity. Qed.

Lemma rstrip_idem (s : string) : Py.rstrip (Py.rstrip s) = Py.rstrip s.
Proof.
  induction s as [|c s IH]; [reflexivity|].
  rewrite rstrip_cons. destruct (Py.rstrip s) as [|d r] eqn:Hr.
  - destruct (Py.is_space c) eqn:Hc; simpl; [reflexivity | now rewrite Hc].
  - rewrite rstrip_cons, IH. reflexivity.
Qed.

Lemma rstrip_head (c : ascii) (s : string) :
  Py.is_space c = false -> exists r, Py.rstrip (String c s) = String c r.
Proof.
  intros Hc. simpl. destruct (Py.rstrip s); rewrite ?Hc; eauto.
Qed.

Lemma lstrip_head (s : string) :
  Py.lstrip s = "" \/ exists c r, Py.lstrip s = String c r /\ Py.is_space c = false.
Proof.
  induction s as [|c s IH]; simpl; [now left|].
  destruct (Py.is_space c) eqn:Hc; [assumption | right; eauto].
Qed.

(** A trimmed string starts and ends with no whitespace: trimming it
    again on either side changes nothing. *)
Lemma strip_trimmed (s : string) :
  Py.lstrip (Py.strip s) = Py.strip s /\ Py.rstrip (Py.strip s) = Py.strip s.
Proof.
  unfold Py.strip. split; [|apply rstrip_idem].
  destruct (lstrip_head s) as [-> | (c & r & -> & Hc)]; [reflexivity|].
  destruct (rstrip_head c r Hc) as [r' ->]. simpl. now rewrite Hc.
Qed.

(** ** The fetch helper never raises *)

Lemma get_company_pscs_returns (env : Env) (company_number : string) :
  exists pscs, get_company_pscs env company_number = Returned pscs.
Proof.
  unfold get_company_pscs. destruct (get_company_pscs_try env company_number); eauto.
Qed.

Lemma get_company_pscs_transport (env : Env) (company_number msg : string) :
  psc_endpoint env company_number = TransportError msg ->
  get_company_pscs env company_number = Returned [].
Proof.
  intros H. unfold get_company_pscs, get_company_pscs_try.
  destruct (get_auth_headers env); [|reflexivity]. now rewrite H.
Qed.

(** ** The builder never raises *)

Lemma build_returns (env : Env) fuel cn nm visited errors depth o v e :
  build_ownership_tree env fuel cn nm visited errors depth = Some (o, v, e) ->
  exists t, o = Returned t.
Proof.
  destruct fuel as [|fuel]; simpl; [discriminate|].
  case_bool_decide.
  - intros [= <- <- <-]. eauto.
  - destruct (get_company_pscs env cn).
    + destruct (process_pscs _ _ _ _ _ _) as [[r e']|]; [|discriminate].
      intros [= <- <- <-]. eauto.
    + intros [= <- <- <-]. eauto.
Qed.

(** The caller's set gains the company's own number and nothing else:
    what the calls below add goes to their copies. *)
Lemma build_visited (env : Env) fuel cn nm visited errors depth o v e :
  build_ownership_tree env fuel cn nm visited errors depth = Some (o, v, e) ->
  v = {[cn]} ∪ visited.
Proof.
  destruct fuel as [|fuel]; simpl; [discriminate|].
  case_bool_decide.
  - intros [= ? <- ?]. symmetry. apply subseteq_union_1_L, singleton_subseteq_l. assumption.
  - destruct (get_company_pscs env cn).
    + destruct (process_pscs _ _ _ _ _ _) as [[r e']|]; [|discriminate].
      now intros [= <- <- <-].
    + now intros [= <- <- <-].
Qed.

(** ** The loop *)

Lemma set_children_app_nil (root : PSCNode) :
  set_children root (children root ++ [])%list = root.
Proof. destruct root. unfold set_children. simpl. now rewrite app_nil_r. Qed.

Lemma process_pscs_spec (self : builder) pscs root visited errors depth root' errors' :
  process_pscs self pscs root visited errors depth = Some (root', errors') ->
  exists new,
    root' = set_children root (children root ++ new)%list
    /\ Forall2 (child_of self visited depth) (filter not_ceased pscs) new.
Proof.
  revert root errors. induction pscs as [|psc rest IH]; intros root errors; simpl.
  - intros [= <- <-]. exists []. split; [now rewrite set_children_app_nil | constructor].
  - destruct (Psc.ceased_on psc) as [d|] eqn:Hc.
    + rewrite filter_cons_False by (unfold not_ceased; congruence). apply IH.
    + rewrite filter_cons_True by exact Hc.
      destruct (expand_psc _ _ _ _ _ _) as [[node errs]|] eqn:He; [|discriminate].
      intros H. apply IH in H as (new & -> & Hnew).
      exists (node :: new). split.
      * unfold set_children, append_child, set_children. simpl.
        now rewrite <- app_assoc.
      * constructor; [|assumption]. now exists (length (children root)), errors, errs.
Qed.

Lemma truthy_spec (o : option string) :
  Py.truthy o = true <-> exists s, o = Some s /\ s <> "".
Proof.
  destruct o as [[|c s]|]; simpl; split; try discriminate.
  - intros (s & [= <-] & H). congruence.
  - intros _. eexists. split; [reflexivity | discriminate].
  - intros (s' & [= <-] & H). reflexivity.
  - intros (s & H & _). discriminate.
Qed.

(** The two ways out of the loop body when the recursive call is the
    builder itself: the fresh node untouched, or the fresh node with the
    registration number and the children of the tree built for it. *)
Lemma expand_psc_inv (env : Env) fuel psc k visited errors depth node errors' :
  expand_psc (build_ownership_tree env fuel) psc (new_psc_node psc k)
    visited errors depth = Some (node, errors') ->
  (node = new_psc_node psc k /\ errors' = errors
   /\ (determine_entity_type psc <> "uk_company"
       \/ Py.truthy (Psc.identification_get Psc.registration_number psc) = false))
  \/ exists number child_tree v,
      determine_entity_type psc = "uk_company"
      /\ Psc.identification_get Psc.registration_number psc = Some number
      /\ number <> ""
      /\ build_ownership_tree env fuel number (Py.strip (psc_display_name psc))
           visited errors (depth + 1) = Some (Returned child_tree, v, errors')
      /\ node = set_children (set_company_number (new_psc_node psc k) number)
                  (children child_tree).
Proof.
  unfold expand_psc. cbn [type new_psc_node].
  destruct (String.eqb _ _) eqn:Ht.
  - apply String.eqb_eq in Ht.
    destruct (Py.truthy _) eqn:Hn.
    + apply truthy_spec in Hn as (number & Hnum & Hne). rewrite Hnum. cbn [default].
      destruct (build_ownership_tree _ _ _ _ _ _ _) as [[[o v] e]|] eqn:Hb; [|discriminate].
      destruct (build_returns _ _ _ _ _ _ _ _ _ _ Hb) as [ct ->].
      intros [= <- <-]. right. exists number, ct, v. auto.
    + intros [= <- <-]. left. auto.
  - apply String.eqb_neq in Ht. intros [= <- <-]. left. auto.
Qed.

(** ** The shape of built trees *)

Lemma nodes_unfold (n : PSCNode) : nodes n = n :: descendants n.
Proof. destruct n. reflexivity. Qed.

Lemma descendants_set_children (n : PSCNode) (cs : list PSCNode) :
  descendants (set_children n cs) = flat_map nodes cs.
Proof. reflexivity. Qed.

Lemma build_shape (env : Env) fuel cn nm visited errors depth t v e :
  build_ownership_tree env fuel cn nm visited errors depth = Some (Returned t, v, e) ->
  Forall (psc_node_shape env) (descendants t).
Proof.
  revert cn nm visited errors depth t v e.
  induction fuel as [|fuel IH]; intros cn nm visited errors depth t v e; simpl;
    [discriminate|].
  case_bool_decide; [intros [= <- _ _]; constructor|].
  destruct (get_company_pscs env cn) as [pscs|] eqn:Hf;
    [|intros [= <- _ _]; constructor].
  destruct (process_pscs _ _ _ _ _ _) as [[r e']|] eqn:Hp; [|discriminate].
  intros [= <- _ _].
  apply process_pscs_spec in Hp as (new & -> & Hnew).
  rewrite descendants_set_children. cbn [children app].
  assert (Hin : forall psc, psc ∈ filter not_ceased pscs -> fetched env psc /\ not_ceased psc).
  { intros psc Hpsc. apply list_elem_of_filter in Hpsc as [Hc Hpsc].
    split; [exists cn, pscs; auto | assumption]. }
  clear Hf. induction Hnew as [|psc node kept new Hchild _ IHnew]; [constructor|].
  cbn [flat_map]. apply Forall_app. split.
  - destruct (Hin psc) as [Hfetched Hactive]; [left|].
    destruct Hchild as (k & errs & errs' & Hx).
    apply expand_psc_inv in Hx
      as [(-> & _ & _) | (number & ct & v' & Hty & Hnum & Hne & Hb & ->)].
    + rewrite nodes_unfold. constructor; [now apply shape_leaf | constructor].
    + rewrite nodes_unfold, descendants_set_children. constructor.
      * now apply shape_expanded.
      * exact (IH _ _ _ _ _ _ _ _ Hb).
  - apply IHnew. intros psc' Hpsc'. apply Hin. now right.
Qed.

(** The root of a built tree: the circular-reference marker when the
    company is already in the set, the company's own node otherwise. *)
Lemma build_root (env : Env) fuel cn nm visited errors depth t v e :
  build_ownership_tree env fuel cn nm visited errors depth = Some (Returned t, v, e) ->
  ((cn ∈ visited)
   /\ t = mkPSCNode cn (nm +:+ " (circular reference)") "uk_company" (Some cn) None []
            [] true (Some "Circular reference detected"))
  \/ ((cn ∉ visited)
      /\ t = mkPSCNode cn nm "uk_company" (Some cn) None [] (children t) true None).
Proof.
  destruct fuel as [|fuel]; simpl; [discriminate|].
  case_bool_decide; [intros [= <- _ _]; now left|].
  destruct (get_company_pscs_returns env cn) as [pscs ->].
  destruct (process_pscs _ _ _ _ _ _) as [[r e']|] eqn:Hp; [|discriminate].
  intros [= <- _ _]. right. split; [assumption|].
  apply process_pscs_spec in Hp as (new & -> & _). reflexivity.
Qed.

(** ** Invariants of built trees *)

Lemma shape_children (env : Env) (n : PSCNode) :
  psc_node_shape env n ->
  children n = []
  \/ (type n = "uk_company" /\ exists number, number <> "" /\ company_number n = Some number).
Proof.
  intros [psc k _ _ | psc k number cs _ _ Hty _ Hne]; [now left | right].
  split; [exact Hty | now exists number].
Qed.

(** C8. In every tree the builder returns, a node whose type is not
    uk_company has no children, and a node with children has type
    uk_company and carries a company number. *)
Theorem leaf_invariant (env : Env) fuel cn nm visited errors depth t v e :
  build_ownership_tree env fuel cn nm visited errors depth = Some (Returned t, v, e) ->
  Forall (fun n =>
            (type n <> "uk_company" -> children n = [])
            /\ (children n <> [] ->
                type n = "uk_company" /\ exists number, company_number n = Some number))
         (nodes t).
Proof.
  intros Hb. rewrite nodes_unfold. constructor.
  - destruct (build_root _ _ _ _ _ _ _ _ _ _ Hb) as [[_ ->] | [_ ->]]; cbn;
      (split; [congruence | intros _; eauto]).
  - eapply Forall_impl; [exact (build_shape _ _ _ _ _ _ _ _ _ _ Hb)|].
    intros n Hn. apply shape_children in Hn as [Hn | (Hty & number & _ & Hnum)].
    + split; [auto | congruence].
    + split; [congruence | eauto].
Qed.

Lemma leaf_invariant_witness :
  exists t v e,
    build_ownership_tree Scenario.plain 5 "001" "Acme Ltd" ∅ [] 0 = Some (Returned t, v, e)
    /\ length (children t) = 2
    /\ Forall (fun n =>
                 (type n <> "uk_company" -> children n = [])
                 /\ (children n <> [] ->
                     type n = "uk_company" /\ exists number, company_number n = Some number))
              (nodes t).
Proof.
  eexists _, _, _. split; [vm_compute; reflexivity|]. split; [reflexivity|].
  eapply (leaf_invariant Scenario.plain 5 "001" "Acme Ltd" ∅ [] 0).
  vm_compute. reflexivity.
Defined.

(** C10. Every node of every tree the builder returns is active: no node
    is ever made or changed with [is_active] other than [True]. *)
Theorem all_nodes_active (env : Env) fuel cn nm visited errors depth t v e :
  build_ownership_tree env fuel cn nm visited errors depth = Some (Returned t, v, e) ->
  Forall (fun n => is_active n = true) (nodes t).
Proof.
  intros Hb. rewrite nodes_unfold. constructor.
  - now destruct (build_root _ _ _ _ _ _ _ _ _ _ Hb) as [[_ ->] | [_ ->]].
  - eapply Forall_impl; [exact (build_shape _ _ _ _ _ _ _ _ _ _ Hb)|].
    now intros n [psc k _ _ | psc k number cs _ _ _ _ _].
Qed.

Lemma all_nodes_active_witness :
  exists t v e,
    build_ownership_tree Scenario.cycle 5 "001" "Acme Ltd" ∅ [] 0 = Some (Returned t, v, e)
    /\ length (nodes t) = 3
    /\ Forall (fun n => is_active n = true) (nodes t).
Proof.
  eexists _, _, _. split; [vm_compute; reflexivity|]. split; [reflexivity|].
  eapply (all_nodes_active Scenario.cycle 5 "001" "Acme Ltd" ∅ [] 0).
  vm_compute. reflexivity.
Defined.

(** ** Names *)

(** C9, counterexample. A record with neither a name nor name elements
    gets the name [" "] before trimming, and its node the empty name. *)
Lemma nameless_record_empty_name :
  Scenario.run Scenario.nameless
  = Some (mkPSCNode "001" "Acme Ltd" "uk_company" (Some "001") None []
            [mkPSCNode "psc_0" "" "individual" None None [] [] true None]
            true None)
  /\ exists t n, Scenario.run Scenario.nameless = Some t
                 /\ n ∈ nodes t /\ Py.strip (name n) = "".
Proof.
  split; [vm_compute; reflexivity|].
  eexists _, (mkPSCNode "psc_0" "" "individual" None None [] [] true None).
  split; [vm_compute; reflexivity|]. split; [|reflexivity].
  right. left.
Qed.

(** ** Ceased records *)

Lemma child_of_record (env : Env) fuel visited depth psc node :
  child_of (build_ownership_tree env fuel) visited depth psc node ->
  node_of_record psc node.
Proof.
  intros (k & errs & errs' & Hx).
  apply expand_psc_inv in Hx as [(-> & _ & _) | (number & ct & v' & _ & _ & _ & _ & ->)];
    repeat split.
Qed.

Lemma shape_record (env : Env) (n : PSCNode) :
  psc_node_shape env n ->
  exists psc, fetched env psc /\ not_ceased psc /\ node_of_record psc n.
Proof.
  intros [psc k Hf Hc | psc k number cs Hf Hc _ _ _]; exists psc; repeat split; assumption.
Qed.

Lemma build_children (env : Env) fuel cn nm visited errors depth t v e pscs :
  build_ownership_tree env fuel cn nm visited errors depth = Some (Returned t, v, e) ->
  cn ∉ visited ->
  get_company_pscs env cn = Returned pscs ->
  Forall2 (child_of (build_ownership_tree env (pred fuel)) ({[cn]} ∪ visited) depth)
    (filter not_ceased pscs) (children t).
Proof.
  destruct fuel as [|fuel]; simpl; [discriminate|].
  intros Hb Hnv Hf. rewrite bool_decide_eq_false_2 in Hb by assumption.
  rewrite Hf in Hb.
  destruct (process_pscs _ _ _ _ _ _) as [[r e']|] eqn:Hp; [|discriminate].
  injection Hb as <- _ _.
  apply process_pscs_spec in Hp as (new & -> & Hnew). exact Hnew.
Qed.

(** C7, counterexample. A record whose cessation marker is present but
    empty is skipped like any other record with a marker. *)
Lemma empty_cessation_marker_skipped :
  psc_endpoint Scenario.ceased_empty "001"
  = Response 200 (Some [Psc.mk (Some "individual-person-with-significant-control")
                          (Some "Jane Doe") None None None (Some "") None None])
  /\ Scenario.run Scenario.ceased_empty
     = Some (mkPSCNode "001" "Acme Ltd" "uk_company" (Some "001") None [] [] true None).
Proof. split; vm_compute; reflexivity. Qed.

(** C7, as amended. A record produces a child node if and only if its
    cessation marker is absent: the children of a company's node are, in
    order, one node for each fetched record without a marker, and every
    node below the root of a built tree comes from such a record; a record
    with a marker, empty or not, produces none. *)
Theorem ceased_records_skipped (env : Env) fuel cn nm visited errors depth t v e pscs :
  build_ownership_tree env fuel cn nm visited errors depth = Some (Returned t, v, e) ->
  cn ∉ visited ->
  get_company_pscs env cn = Returned pscs ->
  Forall2 node_of_record (filter (fun psc => Psc.ceased_on psc = None) pscs) (children t)
  /\ Forall (fun n => exists psc,
                 fetched env psc /\ Psc.ceased_on psc = None /\ node_of_record psc n)
            (descendants t).
Proof.
  intros Hb Hnv Hf. split.
  - eapply Forall2_impl; [exact (build_children _ _ _ _ _ _ _ _ _ _ _ Hb Hnv Hf)|].
    intros psc node. apply child_of_record.
  - eapply Forall_impl; [exact (build_shape _ _ _ _ _ _ _ _ _ _ Hb)|].
    intros n. apply shape_record.
Qed.

Lemma ceased_records_skipped_witness :
  exists t v e pscs,
    build_ownership_tree Scenario.plain 5 "001" "Acme Ltd" ∅ [] 0 = Some (Returned t, v, e)
    /\ get_company_pscs Scenario.plain "001" = Returned pscs
    /\ length pscs = 2
    /\ Forall2 node_of_record (filter (fun psc => Psc.ceased_on psc = None) pscs) (children t)
    /\ Forall (fun n => exists psc,
                   fetched Scenario.plain psc /\ Psc.ceased_on psc = None
                   /\ node_of_record psc n)
              (descendants t).
Proof.
  eexists _, _, _, _. split; [vm_compute; reflexivity|].
  split; [vm_compute; reflexivity|]. split; [reflexivity|].
  eapply (ceased_records_skipped Scenario.plain 5 "001" "Acme Ltd" ∅ [] 0).
  - vm_compute. reflexivity.
  - apply not_elem_of_empty.
  - vm_compute. reflexivity.
Defined.

(** ** Fetch failures *)

(** C1, counterexample. The fetch for the root company fails in
    transport; the response reports no error at all. *)
Lemma transport_error_leaves_no_trace :
  psc_endpoint Scenario.broken "001" = TransportError "connection reset"
  /\ get_ownership_structure Scenario.broken "" 5 "Acme Ltd"
     = Some (Ok {| root_company :=
                     mkPSCNode "001" "Acme Ltd" "uk_company" (Some "001") None [] [] true None;
                   total_nodes := 1;
                   errors := [] |})
  /\ exists r, get_ownership_structure Scenario.broken "" 5 "Acme Ltd" = Some (Ok r)
               /\ error (root_company r) = None /\ length (errors r) <> 1.
Proof.
  split; [reflexivity|]. split; [vm_compute; reflexivity|].
  eexists. split; [vm_compute; reflexivity|]. split; [reflexivity | discriminate].
Qed.

Lemma build_no_records (env : Env) fuel cn nm visited errors depth :
  get_company_pscs env cn = Returned [] ->
  cn ∉ visited ->
  build_ownership_tree env (S fuel) cn nm visited errors depth
  = Some (Returned (mkPSCNode cn nm "uk_company" (Some cn) None [] [] true None),
          {[cn]} ∪ visited, errors).
Proof.
  intros Hf Hnv. simpl. rewrite bool_decide_eq_false_2 by assumption.
  now rewrite Hf.
Qed.

(** C1, as amended. When the fetch for a company fails in transport, the
    fetch helper turns the failure into an empty list: the node built for
    the company has no error and no children, and nothing is appended to
    the errors list. In the request whose root company's fetch fails, the
    response has an empty errors list and a total of one node. *)
Theorem transport_error_swallowed (env : Env) (cn msg : string) :
  psc_endpoint env cn = TransportError msg ->
  (forall fuel nm visited errors depth,
      cn ∉ visited ->
      build_ownership_tree env (S fuel) cn nm visited errors depth
      = Some (Returned (mkPSCNode cn nm "uk_company" (Some cn) None [] [] true None),
              {[cn]} ∪ visited, errors))
  /\ (forall fuel text q company nm,
         search_company_by_name env q = Returned (Some company) ->
         Company.company_number company = Some cn -> cn <> "" ->
         Company.title company = Some nm ->
         get_ownership_structure env text (S fuel) q
         = Some (Ok {| root_company :=
                         mkPSCNode cn nm "uk_company" (Some cn) None [] [] true None;
                       total_nodes := 1;
                       errors := [] |})).
Proof.
  intros Ht. apply get_company_pscs_transport in Ht.
  split.
  - intros fuel nm visited errors depth Hnv. now apply build_no_records.
  - intros fuel text q company nm Hs Hcn Hne Hnm.
    unfold get_ownership_structure. rewrite Hs, Hcn, Hnm.
    replace (Py.truthy (Some cn)) with true
      by (symmetry; apply truthy_spec; eauto).
    cbn [negb default].
    rewrite build_no_records by (assumption || apply not_elem_of_empty).
    reflexivity.
Qed.

Lemma transport_error_swallowed_witness :
  psc_endpoint Scenario.broken "001" = TransportError "connection reset"
  /\ build_ownership_tree Scenario.broken 1 "001" "Acme Ltd" ∅ ["earlier"] 0
     = Some (Returned (mkPSCNode "001" "Acme Ltd" "uk_company" (Some "001") None [] [] true None),
             {["001"]} ∪ ∅, ["earlier"])
  /\ get_ownership_structure Scenario.broken "" 1 "Acme Ltd"
     = Some (Ok {| root_company :=
                     mkPSCNode "001" "Acme Ltd" "uk_company" (Some "001") None [] [] true None;
                   total_nodes := 1;
                   errors := [] |}).
Proof.
  split; [reflexivity|].
  destruct (transport_error_swallowed Scenario.broken "001" "connection reset" eq_refl)
    as [Hbuild Hrequest].
  split.
  - apply Hbuild. apply not_elem_of_empty.
  - apply (Hrequest 0 "" "Acme Ltd" Scenario.acme "Acme Ltd");
      [vm_compute; reflexivity | reflexivity | discriminate | reflexivity].
Defined.

(** ** Cycles *)

(** C2, on the scenario. "001" is controlled by "002", which is
    controlled by "001": the build ends with three nodes, and the node of
    the second occurrence of "001" is a childless uk_company, but it
    carries neither the error nor the suffixed name of the marker the
    recursive call made for it: only the marker's (empty) child list is
    adopted. *)
Theorem cycle_marker_dropped :
  get_ownership_structure Scenario.cycle "" 5 "Acme Ltd"
  = Some (Ok {| root_company :=
                  mkPSCNode "001" "Acme Ltd" "uk_company" (Some "001") None []
                    [mkPSCNode "psc_0" "Holding Ltd" "uk_company" (Some "002") None
                       ["ownership-of-shares-75-to-100-percent"]
                       [mkPSCNode "psc_0" "Acme Ltd" "uk_company" (Some "001") None
                          ["ownership-of-shares-75-to-100-percent"] [] true None]
                       true None]
                    true None;
                total_nodes := 3;
                errors := [] |})
  /\ build_ownership_tree Scenario.cycle 3 "001" "Acme Ltd" {["001"; "002"]} [] 2
     = Some (Returned (mkPSCNode "001" "Acme Ltd (circular reference)" "uk_company"
                         (Some "001") None [] [] true (Some "Circular reference detected")),
             {["001"; "002"]}, []).
Proof. split; vm_compute; reflexivity. Qed.

(** ** Fuel *)

Lemma expand_psc_mono (self self' : builder) psc node visited errors depth r :
  (forall cn nm vs es d r, self cn nm vs es d = Some r -> self' cn nm vs es d = Some r) ->
  expand_psc self psc node visited errors depth = Some r ->
  expand_psc self' psc node visited errors depth = Some r.
Proof.
  intros Hself. unfold expand_psc.
  destruct (String.eqb _ _); [|auto].
  destruct (Py.truthy _); [|auto].
  destruct (self _ _ _ _ _) as [res|] eqn:Hs; [|discriminate].
  now rewrite (Hself _ _ _ _ _ _ Hs).
Qed.

Lemma process_pscs_mono (self self' : builder) pscs root visited errors depth r :
  (forall cn nm vs es d r, self cn nm vs es d = Some r -> self' cn nm vs es d = Some r) ->
  process_pscs self pscs root visited errors depth = Some r ->
  process_pscs self' pscs root visited errors depth = Some r.
Proof.
  intros Hself. revert root errors.
  induction pscs as [|psc rest IH]; intros root errors; simpl; [auto|].
  destruct (Psc.ceased_on psc); [apply IH|].
  destruct (expand_psc self _ _ _ _ _) as [[node errs]|] eqn:Hx; [|discriminate].
  rewrite (expand_psc_mono _ _ _ _ _ _ _ _ Hself Hx). apply IH.
Qed.

Lemma build_S (env : Env) fuel cn nm visited errors depth :
  build_ownership_tree env (S fuel) cn nm visited errors depth =
  if bool_decide (cn ∈ visited) then
    Some (Returned (mkPSCNode cn (nm +:+ " (circular reference)") "uk_company" (Some cn)
                      None [] [] true (Some "Circular reference detected")),
          visited, errors)
  else
    match get_company_pscs env cn with
    | Raised e =>
        let error_msg := "Error processing PSCs for " +:+ cn +:+ ": " +:+ str_exn e in
        Some (Returned (set_error (mkPSCNode cn nm "uk_company" (Some cn) None [] [] true None)
                          error_msg),
              {[cn]} ∪ visited, (errors ++ [error_msg])%list)
    | Returned pscs =>
        match process_pscs (build_ownership_tree env fuel) pscs
                (mkPSCNode cn nm "uk_company" (Some cn) None [] [] true None)
                ({[cn]} ∪ visited) errors depth with
        | None => None
        | Some (root_node, errors) => Some (Returned root_node, {[cn]} ∪ visited, errors)
        end
    end.
Proof. reflexivity. Qed.

Lemma build_fuel_S (env : Env) fuel cn nm visited errors depth r :
  build_ownership_tree env fuel cn nm visited errors depth = Some r ->
  build_ownership_tree env (S fuel) cn nm visited errors depth = Some r.
Proof.
  revert cn nm visited errors depth r.
  induction fuel as [|fuel IH]; intros cn nm visited errors depth r; [discriminate|].
  rewrite (build_S env (S fuel)), (build_S env fuel).
  case_bool_decide; [auto|].
  destruct (get_company_pscs env cn) as [pscs|]; [|auto].
  destruct (process_pscs (build_ownership_tree env fuel) _ _ _ _ _) as [[root errs]|] eqn:Hp;
    [|discriminate].
  now rewrite (process_pscs_mono _ _ _ _ _ _ _ _ IH Hp).
Qed.

Lemma build_fuel_mono (env : Env) fuel fuel' cn nm visited errors depth r :
  build_ownership_tree env fuel cn nm visited errors depth = Some r ->
  fuel <= fuel' ->
  build_ownership_tree env fuel' cn nm visited errors depth = Some r.
Proof.
  intros Hb Hle. induction Hle as [|fuel' _ IH]; [exact Hb | now apply build_fuel_S].
Qed.

(** ** Termination *)

Lemma expand_psc_total (self : builder) psc node visited errors depth :
  (forall cn nm es d, exists r, self cn nm visited es d = Some r) ->
  exists r, expand_psc self psc node visited errors depth = Some r.
Proof.
  intros Hself. unfold expand_psc.
  destruct (String.eqb _ _); [|eauto].
  destruct (Py.truthy _); [|eauto].
  edestruct Hself as [[[[t|ex] v] e] ->]; eauto.
Qed.

Lemma process_pscs_total (self : builder) pscs root visited errors depth :
  (forall cn nm es d, exists r, self cn nm visited es d = Some r) ->
  exists r, process_pscs self pscs root visited errors depth = Some r.
Proof.
  intros Hself. revert root errors.
  induction pscs as [|psc rest IH]; intros root errors; simpl; [eauto|].
  destruct (Psc.ceased_on psc); [apply IH|].
  destruct (expand_psc_total self psc (new_psc_node psc (length (children root)))
              visited errors depth Hself) as [[node errs] ->].
  apply IH.
Qed.

Section FiniteProvider.

Variable env : Env.

(** The companies the provider has records for. *)
Variable known : gset string.

Hypothesis unknown_empty :
  forall cn, cn ∉ known -> get_company_pscs env cn = Returned [].

Lemma known_shrinks (cn : string) (visited : gset string) :
  cn ∈ known -> cn ∉ visited ->
  size (known ∖ ({[cn]} ∪ visited)) < size (known ∖ visited).
Proof.
  intros Hk Hv. apply subset_size. split.
  - intros x. rewrite !elem_of_difference, elem_of_union. tauto.
  - intros Hsub. specialize (Hsub cn).
    rewrite !elem_of_difference, elem_of_union, elem_of_singleton in Hsub. tauto.
Qed.

Lemma build_total fuel cn nm visited errors depth :
  size (known ∖ visited) < fuel ->
  exists r, build_ownership_tree env fuel cn nm visited errors depth = Some r.
Proof.
  revert cn nm visited errors depth.
  induction fuel as [|fuel IH]; intros cn nm visited errors depth Hsize; [lia|].
  simpl. case_bool_decide; [eauto|].
  destruct (decide (cn ∈ known)) as [Hk|Hk].
  - destruct (get_company_pscs_returns env cn) as [pscs ->].
    pose proof (known_shrinks cn visited Hk ltac:(assumption)) as Hlt.
    destruct (process_pscs_total (build_ownership_tree env fuel) pscs
                (mkPSCNode cn nm "uk_company" (Some cn) None [] [] true None)
                ({[cn]} ∪ visited) errors depth) as [[root errs] ->]; [|eauto].
    intros cn' nm' es d. apply IH. lia.
  - rewrite (unknown_empty cn Hk). simpl. eauto.
Qed.

Lemma build_height fuel cn nm visited errors depth t v e :
  build_ownership_tree env fuel cn nm visited errors depth = Some (Returned t, v, e) ->
  height t <= S (size (known ∖ visited)).
Proof.
  revert cn nm visited errors depth t v e.
  induction fuel as [|fuel IH]; intros cn nm visited errors depth t v e; [discriminate|].
  simpl. case_bool_decide as Hv; [intros [= <- _ _]; simpl; lia|].
  destruct (decide (cn ∈ known)) as [Hk|Hk].
  - destruct (get_company_pscs_returns env cn) as [pscs ->].
    pose proof (known_shrinks cn visited Hk Hv) as Hlt.
    destruct (process_pscs _ _ _ _ _ _) as [[root errs]|] eqn:Hp; [|discriminate].
    intros [= <- _ _].
    apply process_pscs_spec in Hp as (new & -> & Hnew).
    cbn [height children set_children app].
    apply le_n_S.
    induction Hnew as [|psc node kept new Hchild _ IHnew]; [simpl; lia|].
    cbn [map fold_right]. apply Nat.max_lub; [|exact IHnew].
    destruct Hchild as (k & errs0 & errs' & Hx).
    apply expand_psc_inv in Hx
      as [(-> & _ & _) | (number & ct & v' & _ & _ & _ & Hb & ->)].
    + simpl. lia.
    + apply IH in Hb. destruct ct. simpl in *. lia.
  - rewrite (unknown_empty cn Hk). simpl. intros [= <- _ _]. simpl. lia.
Qed.

End FiniteProvider.

Lemma endpoint_of_map_unknown (m : gmap string (http_result Psc.t)) key search cn :
  cn ∉ dom m ->
  get_company_pscs (mkEnv key (endpoint_of_map m) search) cn = Returned [].
Proof.
  intros Hcn. apply not_elem_of_dom in Hcn.
  unfold get_company_pscs, get_company_pscs_try, endpoint_of_map. cbn [psc_endpoint].
  rewrite Hcn. cbn [default]. now destruct (get_auth_headers _).
Qed.

(** C3. For every provider given by a finite map, the build ends: for
    any company, name, set and list there is one result that every run
    with more fuel than the map has companies returns, so the nesting of
    calls never exceeds that number by more than the one call that is
    truncated or finds nothing; the returned tree has at most that many
    levels below its root. *)
Theorem build_terminates (m : gmap string (http_result Psc.t)) key search
    cn nm visited errors depth :
  exists t e,
    (forall fuel,
        size (dom m) < fuel ->
        build_ownership_tree (mkEnv key (endpoint_of_map m) search) fuel
          cn nm visited errors depth
        = Some (Returned t, {[cn]} ∪ visited, e))
    /\ height t <= S (size (dom m)).
Proof.
  set (env := mkEnv key (endpoint_of_map m) search).
  assert (Hle : size (dom m ∖ visited) <= size (dom m))
    by (apply subseteq_size; intros x; rewrite elem_of_difference; tauto).
  destruct (build_total env (dom m) (endpoint_of_map_unknown m key search)
              (S (size (dom m))) cn nm visited errors depth) as [[[o v] e] Hb]; [lia|].
  destruct (build_returns _ _ _ _ _ _ _ _ _ _ Hb) as [t ->].
  pose proof (build_visited _ _ _ _ _ _ _ _ _ _ Hb) as ->.
  exists t, e. split.
  - intros fuel Hfuel. eapply build_fuel_mono; [exact Hb | lia].
  - pose proof (build_height env (dom m) (endpoint_of_map_unknown m key search)
                  _ _ _ _ _ _ _ _ _ Hb). lia.
Qed.

Lemma build_terminates_witness :
  exists t e,
    build_ownership_tree Scenario.diamond 5 "001" "Acme Ltd" ∅ [] 0
    = Some (Returned t, {["001"]} ∪ ∅, e)
    /\ height t <= 5.
Proof.
  destruct (build_terminates
              (<["001" := Response 200 (Some [Scenario.corporate "Left Ltd" "002" "England";
                                              Scenario.corporate "Right Ltd" "003" "Wales"])]>
               (<["002" := Response 200 (Some [Scenario.corporate "Common Ltd" "004" "UK"])]>
                (<["003" := Response 200 (Some [Scenario.corporate "Common Ltd" "004" "UK"])]>
                 (<["004" := Response 200 (Some [Scenario.person "Jane Doe"])]> ∅))))
              (Some "key") Scenario.search "001" "Acme Ltd" ∅ [] 0)
    as (t & e & Hrun & Hheight).
  exists t, e. split.
  - apply Hrun. vm_compute. lia.
  - etransitivity; [exact Hheight|]. vm_compute. lia.
Defined.

(** ** The result does not depend on the list or the depth passed in *)

Lemma expand_psc_blind (self : builder) psc node visited e1 d1 node' e1' :
  errors_blind self ->
  expand_psc self psc node visited e1 d1 = Some (node', e1') ->
  forall e2 d2, exists e2', expand_psc self psc node visited e2 d2 = Some (node', e2').
Proof.
  intros Hself Hx e2 d2. unfold expand_psc in *.
  destruct (String.eqb _ _); [|injection Hx as <- _; eauto].
  destruct (Py.truthy _); [|injection Hx as <- _; eauto].
  destruct (self _ _ _ e1 _) as [[[o v] e]|] eqn:Hs; [|discriminate].
  destruct (Hself _ _ _ _ _ _ _ _ Hs e2 (d2 + 1)) as [e2' ->].
  destruct o; injection Hx as <- _; eauto.
Qed.

Lemma process_pscs_blind (self : builder) pscs root visited e1 d1 root' e1' :
  errors_blind self ->
  process_pscs self pscs root visited e1 d1 = Some (root', e1') ->
  forall e2 d2, exists e2', process_pscs self pscs root visited e2 d2 = Some (root', e2').
Proof.
  intros Hself. revert root e1.
  induction pscs as [|psc rest IH]; intros root e1; simpl.
  - intros [= <- _]. eauto.
  - destruct (Psc.ceased_on psc); [apply IH|].
    destruct (expand_psc self _ _ _ e1 _) as [[node errs]|] eqn:Hx; [|discriminate].
    intros Hp e2 d2.
    destruct (expand_psc_blind _ _ _ _ _ _ _ _ Hself Hx e2 d2) as [e2' ->].
    exact (IH _ _ Hp e2' d2).
Qed.

Lemma build_blind (env : Env) fuel : errors_blind (build_ownership_tree env fuel).
Proof.
  induction fuel as [|fuel IH]; intros cn nm vs e1 d1 o v e1'; [discriminate|].
  rewrite build_S. intros Hb e2 d2. rewrite build_S.
  case_bool_decide; [injection Hb as <- <- _; eauto|].
  destruct (get_company_pscs env cn) as [pscs|]; [|injection Hb as <- <- _; eauto].
  destruct (process_pscs _ _ _ _ e1 _) as [[root errs]|] eqn:Hp; [|discriminate].
  destruct (process_pscs_blind _ _ _ _ _ _ _ _ IH Hp e2 d2) as [e2' ->].
  injection Hb as <- <- _. eauto.
Qed.

(** ** Branches *)

Lemma descend_children (rest : list nat) (a b : PSCNode) :
  rest <> [] ->
  children a = children b -> company_number a = company_number b ->
  descend rest a = descend rest b.
Proof.
  destruct rest as [|i rest]; [congruence|]. intros _ Hc Hn. simpl. now rewrite Hc, Hn.
Qed.

Lemma build_company_number (env : Env) fuel cn nm visited errors depth t v e :
  build_ownership_tree env fuel cn nm visited errors depth = Some (Returned t, v, e) ->
  company_number t = Some cn.
Proof.
  intros Hb. now destruct (build_root _ _ _ _ _ _ _ _ _ _ Hb) as [[_ ->] | [_ ->]].
Qed.

Lemma descend_descendant (idxs : list nat) (t : PSCNode) anc n :
  descend idxs t = Some (anc, n) -> idxs <> [] -> n ∈ descendants t.
Proof.
  revert t anc. induction idxs as [|i rest IH]; intros t anc; [congruence|].
  intros Hd _. simpl in Hd.
  destruct (children t !! i) as [c|] eqn:Hi; [|discriminate].
  destruct (company_number t); [|discriminate].
  destruct (descend rest c) as [[anc' n']|] eqn:Hr; [|discriminate].
  injection Hd as _ ->.
  unfold descendants. apply list_elem_of_In, in_flat_map. exists c. split.
  - apply list_elem_of_In. eapply list_elem_of_lookup_2. exact Hi.
  - apply list_elem_of_In. rewrite nodes_unfold.
    destruct rest as [|j rest'].
    + injection Hr as _ ->. left.
    + right. eapply IH; [exact Hr | discriminate].
Qed.

(** The children of a node reached from the root are those of the tree
    built for its company number from the set the root call was given
    plus the company numbers on the way down. *)
Lemma descend_build (env : Env) idxs :
  forall fuel cn nm visited errors depth t v e anc n number,
    build_ownership_tree env fuel cn nm visited errors depth = Some (Returned t, v, e) ->
    descend idxs t = Some (anc, n) -> idxs <> [] ->
    company_number n = Some number ->
    exists errs d t' v' e',
      build_ownership_tree env fuel number (name n) (visited ∪ list_to_set anc) errs d
      = Some (Returned t', v', e')
      /\ children n = children t'.
Proof.
  induction idxs as [|i rest IH];
    intros fuel cn nm visited errors depth t v e anc n number Hb Hd Hne Hnum;
    [congruence|]. clear Hne.
  simpl in Hd.
  destruct (children t !! i) as [ch|] eqn:Hi; [|discriminate].
  rewrite (build_company_number _ _ _ _ _ _ _ _ _ _ Hb) in Hd.
  destruct (descend rest ch) as [[anc' n']|] eqn:Hr; [|discriminate].
  injection Hd as <- ->.
  destruct (build_root _ _ _ _ _ _ _ _ _ _ Hb) as [[_ Ht] | [Hnv _]];
    [rewrite Ht in Hi; discriminate|].
  destruct (get_company_pscs_returns env cn) as [pscs Hf].
  pose proof (build_children _ _ _ _ _ _ _ _ _ _ _ Hb Hnv Hf) as Hall.
  destruct fuel as [|fuel]; [discriminate|]. cbn [pred] in Hall.
  destruct (Forall2_lookup_r _ _ _ _ _ Hall Hi) as (psc & _ & k & errs & errs' & Hx).
  assert (Hset : forall s : gset string,
             ({[cn]} ∪ visited) ∪ s = visited ∪ ({[cn]} ∪ s)).
  { intros s. apply set_eq. intros x.
    rewrite !elem_of_union, elem_of_singleton. tauto. }
  apply expand_psc_inv in Hx
    as [(-> & _ & _) | (num & ct & v' & _ & _ & _ & Hbc & ->)].
  - destruct rest as [|j rest']; simpl in Hr.
    + injection Hr as _ <-. discriminate.
    + discriminate.
  - destruct rest as [|j rest'].
    + injection Hr as <- <-. cbn in Hnum. injection Hnum as ->.
      exists errs, (depth + 1), ct, v', errs'. split; [|reflexivity].
      apply build_fuel_S. cbn [name set_children set_company_number new_psc_node].
      rewrite list_to_set_cons, <- Hset, list_to_set_nil, union_empty_r_L. exact Hbc.
    + rewrite (descend_children _ _ ct) in Hr;
        [| discriminate | reflexivity
         | cbn; symmetry; exact (build_company_number _ _ _ _ _ _ _ _ _ _ Hbc)].
      destruct (IH _ _ _ _ _ _ _ _ _ _ _ _ Hbc Hr ltac:(discriminate) Hnum)
        as (es & d & t' & v'' & e'' & Hb' & Hch).
      exists es, d, t', v'', e''. split; [|exact Hch].
      apply build_fuel_S. rewrite list_to_set_cons, <- Hset. exact Hb'.
Qed.

Lemma shape_error (env : Env) (n : PSCNode) : psc_node_shape env n -> error n = None.
Proof. now intros [psc k _ _ | psc k number cs _ _ _ _ _]. Qed.

(** C4. In a tree built from the empty set, take any node below the root
    that carries a company number. Its children are those of the tree
    the builder makes for that number from the set of the company numbers
    on the node's own path from the root, and from nothing else, whatever
    list and depth are passed; so when the number is not among those
    ancestors the company is expanded in full, one child for each of its
    records still in effect, wherever else in the tree it occurs. The
    node carries no error. *)
Theorem branch_isolation (env : Env) fuel cn nm errors depth t v e idxs anc n number :
  build_ownership_tree env fuel cn nm ∅ errors depth = Some (Returned t, v, e) ->
  descend idxs t = Some (anc, n) -> idxs <> [] ->
  company_number n = Some number ->
  (forall errors' depth',
      exists t' e',
        build_ownership_tree env fuel number (name n) (list_to_set anc) errors' depth'
        = Some (Returned t', {[number]} ∪ list_to_set anc, e')
        /\ children n = children t')
  /\ (number ∉ anc ->
      exists pscs,
        get_company_pscs env number = Returned pscs
        /\ Forall2 node_of_record (filter not_ceased pscs) (children n))
  /\ error n = None.
Proof.
  intros Hb Hd Hne Hnum.
  destruct (descend_build env idxs _ _ _ _ _ _ _ _ _ _ _ _ Hb Hd Hne Hnum)
    as (errs & d & t' & v' & e' & Hb' & Hch).
  rewrite union_empty_l_L in Hb'.
  pose proof (build_visited _ _ _ _ _ _ _ _ _ _ Hb') as ->.
  repeat split.
  - intros errors' depth'.
    destruct (build_blind env fuel _ _ _ _ _ _ _ _ Hb' errors' depth') as [e2 He2].
    now exists t', e2.
  - intros Hfresh.
    destruct (get_company_pscs_returns env number) as [pscs Hf].
    exists pscs. split; [exact Hf|]. rewrite Hch.
    eapply Forall2_impl;
      [eapply (build_children _ _ _ _ _ _ _ _ _ _ _ Hb'); [|exact Hf]|].
    + rewrite elem_of_list_to_set. exact Hfresh.
    + intros psc node. apply child_of_record.
  - pose proof (build_shape _ _ _ _ _ _ _ _ _ _ Hb) as Hshape.
    rewrite Forall_forall in Hshape.
    eapply shape_error, Hshape, descend_descendant; eassumption.
Qed.

Lemma branch_isolation_witness :
  exists t v e n,
    build_ownership_tree Scenario.diamond 5 "001" "Acme Ltd" ∅ [] 0 = Some (Returned t, v, e)
    /\ descend [1; 0] t = Some (["001"; "003"], n)
    /\ company_number n = Some "004"
    /\ length (children n) = 1
    /\ (forall errors' depth',
          exists t' e',
            build_ownership_tree Scenario.diamond 5 "004" (name n)
              (list_to_set ["001"; "003"]) errors' depth'
            = Some (Returned t', {["004"]} ∪ list_to_set ["001"; "003"], e')
            /\ children n = children t')
    /\ ("004" ∉ ["001"; "003"] ->
        exists pscs,
          get_company_pscs Scenario.diamond "004" = Returned pscs
          /\ Forall2 node_of_record (filter not_ceased pscs) (children n))
    /\ error n = None.
Proof.
  eexists _, _, _, _. split; [vm_compute; reflexivity|].
  split; [vm_compute; reflexivity|]. split; [reflexivity|]. split; [reflexivity|].
  eapply (branch_isolation Scenario.diamond 5 "001" "Acme Ltd" [] 0 _ _ _ [1; 0]).
  - vm_compute. reflexivity.
  - vm_compute. reflexivity.
  - discriminate.
  - reflexivity.
Defined.

(** * Further properties of the service *)

(** ** Induction on trees *)

Lemma PSCNode_children_ind (P : PSCNode -> Prop) :
  (forall n, Forall P (children n) -> P n) -> forall n, P n.
Proof.
  intros step. fix IH 1. intros [i nm ty cn co na cs ac er].
  apply step. simpl.
  induction cs as [|c cs IHcs]; constructor; [apply IH | exact IHcs].
Qed.

(** ** Counting *)

Lemma fold_left_count (f : PSCNode -> nat) (l : list PSCNode) (a : nat) :
  fold_left (fun count child => count + f child) l a = a + sum_list (f <$> l).
Proof.
  revert a. induction l as [|x l IH]; intros a; cbn; [lia|]. rewrite IH. cbn. lia.
Qed.

Lemma count_nodes_unfold (n : PSCNode) :
  count_nodes n = 1 + sum_list (count_nodes <$> children n).
Proof. destruct n. simpl. apply fold_left_count. Qed.

Lemma count_nodes_nodes (n : PSCNode) : count_nodes n = length (nodes n).
Proof.
  induction n as [n IH] using PSCNode_children_ind.
  rewrite count_nodes_unfold, nodes_unfold. cbn [length]. f_equal.
  unfold descendants. induction IH as [|c cs Hc _ IHcs]; [reflexivity|].
  cbn [fmap list_fmap sum_list sum_list_with flat_map]. rewrite length_app.
  rewrite Hc. f_equal. exact IHcs.
Qed.

(** X1. The counter returns the number of nodes of the tree: one for the
    node plus the counts of its children, which is the length of the list
    of all nodes, and so at least one. *)
Theorem count_nodes_length (n : PSCNode) :
  count_nodes n = length (nodes n)
  /\ count_nodes n = 1 + sum_list (count_nodes <$> children n)
  /\ 1 <= count_nodes n.
Proof.
  split; [apply count_nodes_nodes|]. split; [apply count_nodes_unfold|].
  rewrite count_nodes_unfold. lia.
Qed.

(** ** The fetch helper *)

(** X2. The fetch helper hands out records only from a 200 response
    obtained with a configured API key: whenever its result is not empty,
    the key is set and the endpoint answered 200 with exactly that list.
    Any other status, a transport failure or a missing key gives the
    empty list, never an exception. *)
Theorem get_company_pscs_only_200 (env : Env) (cn : string) :
  exists pscs,
    get_company_pscs env cn = Returned pscs
    /\ (pscs <> [] ->
        Py.truthy (COMPANIES_HOUSE_API_KEY env) = true
        /\ psc_endpoint env cn = Response 200 (Some pscs)).
Proof.
  unfold get_company_pscs, get_company_pscs_try, get_auth_headers.
  destruct (Py.truthy _); [|exists []; split; [reflexivity | congruence]].
  destruct (psc_endpoint env cn) as [status items|msg];
    [|exists []; split; [reflexivity | congruence]].
  destruct (status =? 200) eqn:Hs.
  - apply Nat.eqb_eq in Hs as ->. exists (default [] items). split; [reflexivity|].
    destruct items as [l|]; [auto | intros H; now destruct H].
  - exists []. split; [now destruct (status =? 404) | congruence].
Qed.

(** ** The search helper *)

Lemma find_first {A : Type} (f : A -> bool) (l : list A) (x : A) :
  List.find f l = Some x ->
  exists pre post, l = (pre ++ x :: post)%list /\ f x = true
                   /\ Forall (fun y => f y = false) pre.
Proof.
  induction l as [|y l IH]; simpl; [discriminate|].
  destruct (f y) eqn:Hy.
  - intros [= ->]. exists [], l. auto.
  - intros H. destruct (IH H) as (pre & post & -> & Hx & Hpre).
    exists (y :: pre), post. auto.
Qed.

Lemma search_company_by_name_cases (env : Env) (q : string) :
  (search_company_by_name env q = Returned None
   /\ (Py.truthy (COMPANIES_HOUSE_API_KEY env) = false
       \/ (exists msg, search_endpoint env q = TransportError msg)
       \/ (exists status items, search_endpoint env q = Response status items
                                /\ status <> 200)))
  \/ exists items,
      Py.truthy (COMPANIES_HOUSE_API_KEY env) = true
      /\ search_endpoint env q = Response 200 items
      /\ search_company_by_name env q =
         Returned (match List.find (name_match q) (default [] items) with
                   | Some company => Some company
                   | None => List.find is_active_company (default [] items)
                   end).
Proof.
  unfold search_company_by_name, search_company_by_name_try, get_auth_headers.
  destruct (Py.truthy _); [|left; auto].
  destruct (search_endpoint env q) as [status items|msg]; [|left; eauto].
  destruct (status =? 200) eqn:Hs.
  - apply Nat.eqb_eq in Hs as ->. right. exists items.
    split; [reflexivity|]. split; [reflexivity|].
    change (fun company => is_active_company company
                           && Py.contains (Py.lower q)
                                (Py.lower (default "" (Company.title company))))
      with (name_match q).
    destruct (List.find (name_match q) _); [reflexivity|].
    now destruct (List.find is_active_company _).
  - apply Nat.eqb_neq in Hs. left. split; [reflexivity|]. right. right. eauto.
Qed.

Lemma is_active_company_spec (c : Company.t) :
  is_active_company c = true <-> Company.company_status c = Some "active".
Proof. unfold is_active_company. apply bool_decide_eq_true. Qed.

(** X3. A company returned by the search is an item of a 200 response
    obtained with a configured key, and its status is "active". *)
Theorem search_result_active (env : Env) (q : string) (company : Company.t) :
  search_company_by_name env q = Returned (Some company) ->
  Py.truthy (COMPANIES_HOUSE_API_KEY env) = true
  /\ Company.company_status company = Some "active"
  /\ exists items, search_endpoint env q = Response 200 (Some items)
                   /\ In company items.
Proof.
  intros Hs.
  destruct (search_company_by_name_cases env q) as [[Hn _] | (items & Hk & He & Hr)];
    [congruence|].
  rewrite Hr in Hs. injection Hs as Hs.
  assert (In company (default [] items) /\ is_active_company company = true)
    as [Hin Hact].
  { destruct (List.find (name_match q) _) as [c|] eqn:Hf.
    - injection Hs as ->. apply find_some in Hf as [Hin Hm].
      apply andb_true_iff in Hm as [Ha _]. auto.
    - now apply find_some in Hs. }
  split; [exact Hk|]. split; [now apply is_active_company_spec|].
  destruct items as [l|]; [eauto | destruct Hin].
Qed.

Lemma search_result_active_witness :
  Py.truthy (COMPANIES_HOUSE_API_KEY Scenario.plain) = true
  /\ Company.company_status Scenario.acme = Some "active"
  /\ exists items, search_endpoint Scenario.plain "acme" = Response 200 (Some items)
                   /\ In Scenario.acme items.
Proof.
  apply (search_result_active Scenario.plain "acme" Scenario.acme).
  vm_compute. reflexivity.
Defined.

(** X4. With a configured key and a 200 response, the search finds no
    company exactly when no item of the response is active. *)
Theorem search_none_iff_no_active (env : Env) (q : string) items :
  Py.truthy (COMPANIES_HOUSE_API_KEY env) = true ->
  search_endpoint env q = Response 200 (Some items) ->
  search_company_by_name env q = Returned None
  <-> Forall (fun c => Company.company_status c <> Some "active") items.
Proof.
  intros Hk He.
  destruct (search_company_by_name_cases env q)
    as [(_ & [Hk' | [[msg Hm] | (st & it & Hr & Hne)]]) | (items' & _ & He' & Hr)];
    try congruence.
  rewrite He in He'. injection He' as <-. rewrite Hr.
  change (default [] (Some items)) with items.
  rewrite Forall_forall. split.
  - intros Hnone c Hin Hact. revert Hnone.
    destruct (List.find (name_match q) items) eqn:Hf; [discriminate|].
    intros [= Hnone].
    apply list_elem_of_In in Hin.
    pose proof (find_none _ _ Hnone c Hin) as Hc.
    apply is_active_company_spec in Hact. congruence.
  - intros Hall.
    destruct (List.find (name_match q) items) as [c|] eqn:Hf.
    + apply find_some in Hf as [Hin Hm]. apply andb_true_iff in Hm as [Ha _].
      apply is_active_company_spec in Ha.
      apply list_elem_of_In in Hin. now apply Hall in Hin.
    + destruct (List.find is_active_company items) as [c|] eqn:Hf2; [|reflexivity].
      apply find_some in Hf2 as [Hin Ha]. apply is_active_company_spec in Ha.
      apply list_elem_of_In in Hin. now apply Hall in Hin.
Qed.

Lemma search_none_iff_no_active_witness :
  search_company_by_name
    (mkEnv (Some "key") (fun _ => Response 404 None)
       (fun _ => Response 200 (Some [Company.mk (Some "dissolved") (Some "Acme Ltd") (Some "001")])))
    "acme" = Returned None
  <-> Forall (fun c => Company.company_status c <> Some "active")
        [Company.mk (Some "dissolved") (Some "Acme Ltd") (Some "001")].
Proof.
  apply (search_none_iff_no_active
           (mkEnv (Some "key") (fun _ => Response 404 None)
              (fun _ => Response 200
                          (Some [Company.mk (Some "dissolved") (Some "Acme Ltd") (Some "001")])))
           "acme"); reflexivity.
Defined.

(** X5. With a configured key and a 200 response, the company the
    search returns is an active item of the list, and it is the first
    active item whose title contains the query (letter case ignored) when
    there is such an item, the first active item of the list when there
    is none. *)
Theorem search_prefers_name_match (env : Env) (q : string) items company :
  Py.truthy (COMPANIES_HOUSE_API_KEY env) = true ->
  search_endpoint env q = Response 200 (Some items) ->
  search_company_by_name env q = Returned (Some company) ->
  exists pre post,
    items = (pre ++ company :: post)%list
    /\ Company.company_status company = Some "active"
    /\ ((Py.contains (Py.lower q) (Py.lower (default "" (Company.title company))) = true
         /\ Forall (fun c => name_match q c = false) pre)
        \/ (Forall (fun c => name_match q c = false) items
            /\ Forall (fun c => Company.company_status c <> Some "active") pre)).
Proof.
  intros Hk He Hs.
  destruct (search_company_by_name_cases env q) as [[Hn _] | (items' & _ & He' & Hr)];
    [congruence|].
  rewrite He in He'. injection He' as <-. rewrite Hr in Hs.
  change (default [] (Some items)) with items in Hs.
  injection Hs as Hs.
  destruct (List.find (name_match q) items) as [c|] eqn:Hf.
  - injection Hs as ->. apply find_first in Hf as (pre & post & -> & Hm & Hpre).
    apply andb_true_iff in Hm as [Ha Hc]. apply is_active_company_spec in Ha.
    exists pre, post. split; [reflexivity|]. split; [exact Ha | left; auto].
  - pose proof (find_none _ _ Hf) as Hnone.
    apply find_first in Hs as (pre & post & -> & Ha & Hpre).
    apply is_active_company_spec in Ha.
    exists pre, post. split; [reflexivity|]. split; [exact Ha | right]. split.
    + apply Forall_forall. intros c Hc. apply Hnone. now apply list_elem_of_In.
    + eapply Forall_impl; [exact Hpre|]. intros c Hc Hact.
      apply is_active_company_spec in Hact. congruence.
Qed.

Lemma search_prefers_name_match_witness :
  exists pre post,
    [Scenario.other; Scenario.acme] = (pre ++ Scenario.acme :: post)%list
    /\ Company.company_status Scenario.acme = Some "active"
    /\ ((Py.contains (Py.lower "ACME")
           (Py.lower (default "" (Company.title Scenario.acme))) = true
         /\ Forall (fun c => name_match "ACME" c = false) pre)
        \/ (Forall (fun c => name_match "ACME" c = false) [Scenario.other; Scenario.acme]
            /\ Forall (fun c => Company.company_status c <> Some "active") pre)).
Proof.
  apply (search_prefers_name_match Scenario.two_companies "ACME"
           [Scenario.other; Scenario.acme] Scenario.acme);
    [reflexivity | reflexivity | vm_compute; reflexivity].
Defined.

(** ** The request handler *)

(** X6. With no API key configured, both helpers swallow the
    configuration error: every fetch gives the empty list and every
    request is answered 404 "not found", never 500. *)
Theorem no_api_key_not_found (env : Env) (text : string) (fuel : nat) (q : string) :
  Py.truthy (COMPANIES_HOUSE_API_KEY env) = false ->
  get_ownership_structure env text fuel q
  = Some (HttpError 404 ("Company '" +:+ q +:+ "' not found"))
  /\ forall cn, get_company_pscs env cn = Returned [].
Proof.
  intros Hk. split.
  - unfold get_ownership_structure, search_company_by_name,
      search_company_by_name_try, get_auth_headers. now rewrite Hk.
  - intros cn. unfold get_company_pscs, get_company_pscs_try, get_auth_headers.
    now rewrite Hk.
Qed.

Lemma no_api_key_not_found_witness :
  get_ownership_structure Scenario.no_key "" 5 "Acme Ltd"
  = Some (HttpError 404 ("Company '" +:+ "Acme Ltd" +:+ "' not found"))
  /\ forall cn, get_company_pscs Scenario.no_key cn = Returned [].
Proof.
  apply (no_api_key_not_found Scenario.no_key "" 5 "Acme Ltd"). reflexivity.
Defined.

(** X7. A successful response is rooted at the company the search
    returned: that company has a non-empty number and a title, the root
    node carries them as id, company number and name with type
    uk_company and without the circular-reference mark, and the total is
    the number of nodes of the tree. *)
Theorem ownership_response_root (env : Env) (text : string) (fuel : nat) (q : string) r :
  get_ownership_structure env text fuel q = Some (Ok r) ->
  exists company cn nm,
    search_company_by_name env q = Returned (Some company)
    /\ Company.company_number company = Some cn /\ cn <> ""
    /\ Company.title company = Some nm
    /\ id (root_company r) = cn
    /\ company_number (root_company r) = Some cn
    /\ name (root_company r) = nm
    /\ type (root_company r) = "uk_company"
    /\ error (root_company r) = None
    /\ total_nodes r = length (nodes (root_company r)).
Proof.
  unfold get_ownership_structure.
  destruct (search_company_by_name env q) as [[company|]|ex] eqn:Hs;
    [| discriminate | destruct ex; discriminate].
  destruct (Py.truthy (Company.company_number company)) eqn:Hn; [|discriminate].
  apply truthy_spec in Hn as (cn & Hcn & Hne). rewrite Hcn. cbn [negb].
  destruct (Company.title company) as [nm|] eqn:Hnm; [|discriminate].
  change (default "" (Some cn)) with cn.
  destruct (build_ownership_tree _ _ _ _ _ _ _) as [[[[t|ex] v] e]|] eqn:Hb;
    [| destruct ex; discriminate | discriminate].
  intros [= <-]. exists company, cn, nm. cbn [root_company total_nodes].
  destruct (build_root _ _ _ _ _ _ _ _ _ _ Hb) as [[Hin _] | [_ Ht]];
    [now apply not_elem_of_empty in Hin|].
  rewrite count_nodes_nodes. rewrite Ht. cbn. repeat split; auto.
Qed.

Lemma ownership_response_root_witness :
  exists r company cn nm,
    get_ownership_structure Scenario.plain "" 5 "acme" = Some (Ok r)
    /\ total_nodes r = 3
    /\ search_company_by_name Scenario.plain "acme" = Returned (Some company)
    /\ Company.company_number company = Some cn /\ cn <> ""
    /\ Company.title company = Some nm
    /\ id (root_company r) = cn
    /\ company_number (root_company r) = Some cn
    /\ name (root_company r) = nm
    /\ type (root_company r) = "uk_company"
    /\ error (root_company r) = None
    /\ total_nodes r = length (nodes (root_company r)).
Proof.
  assert (H : exists r, get_ownership_structure Scenario.plain "" 5 "acme" = Some (Ok r)
                        /\ total_nodes r = 3).
  { eexists. split; [vm_compute; reflexivity | reflexivity]. }
  destruct H as (r & Hr & Htotal).
  destruct (ownership_response_root Scenario.plain "" 5 "acme" r Hr)
    as (company & cn & nm & H).
  exists r, company, cn, nm. auto.
Defined.

(** ** The builder: the root and the set *)

(** X8. A call of the builder leaves in the set it was given that set
    and the company's own number, nothing else: what the calls for the
    companies below add goes to their copies. *)
Theorem visited_gains_own_number_only (env : Env) fuel cn nm visited errors depth o v e :
  build_ownership_tree env fuel cn nm visited errors depth = Some (o, v, e) ->
  forall x, x ∈ v <-> x = cn \/ x ∈ visited.
Proof.
  intros Hb x. rewrite (build_visited _ _ _ _ _ _ _ _ _ _ Hb).
  now rewrite elem_of_union, elem_of_singleton.
Qed.

Lemma visited_gains_own_number_only_witness :
  exists o v e,
    build_ownership_tree Scenario.diamond 5 "001" "Acme Ltd" ∅ [] 0 = Some (o, v, e)
    /\ forall x, x ∈ v <-> x = "001" \/ x ∈ (∅ : gset string).
Proof.
  eexists _, _, _. split; [vm_compute; reflexivity|].
  eapply (visited_gains_own_number_only Scenario.diamond 5 "001" "Acme Ltd" ∅ [] 0).
  vm_compute. reflexivity.
Defined.

(** X9. The root of a returned tree has the company number it was built
    for as id and as company number, and type uk_company. It is the
    circular-reference marker (error set, suffixed name, no children)
    exactly when that number was already in the set; otherwise it has the
    name it was given and no error. *)
Theorem root_node_fields (env : Env) fuel cn nm visited errors depth t v e :
  build_ownership_tree env fuel cn nm visited errors depth = Some (Returned t, v, e) ->
  id t = cn /\ company_number t = Some cn /\ type t = "uk_company"
  /\ country_of_residence t = None /\ nature_of_control t = []
  /\ (cn ∈ visited ->
      error t = Some "Circular reference detected"
      /\ name t = nm +:+ " (circular reference)" /\ children t = [])
  /\ (cn ∉ visited -> error t = None /\ name t = nm).
Proof.
  intros Hb.
  destruct (build_root _ _ _ _ _ _ _ _ _ _ Hb) as [[Hin ->] | [Hnin ->]];
    cbn; split_and!; try reflexivity; intros Hx; try contradiction;
    split_and!; reflexivity.
Qed.

Lemma root_node_fields_witness :
  exists t v e,
    build_ownership_tree Scenario.cycle 5 "001" "Acme Ltd" {["001"]} [] 0
    = Some (Returned t, v, e)
    /\ id t = "001" /\ company_number t = Some "001" /\ type t = "uk_company"
    /\ country_of_residence t = None /\ nature_of_control t = []
    /\ ("001" ∈ ({["001"]} : gset string) ->
        error t = Some "Circular reference detected"
        /\ name t = "Acme Ltd" +:+ " (circular reference)" /\ children t = [])
    /\ ("001" ∉ ({["001"]} : gset string) -> error t = None /\ name t = "Acme Ltd").
Proof.
  eexists _, _, _. split; [vm_compute; reflexivity|].
  eapply (root_node_fields Scenario.cycle 5 "001" "Acme Ltd" {["001"]} [] 0).
  vm_compute. reflexivity.
Defined.

(** ** The builder: the nodes below the root *)

Lemma determine_entity_type_range (psc : Psc.t) :
  In (determine_entity_type psc) entity_types.
Proof.
  unfold determine_entity_type, entity_types.
  destruct (Py.contains "individual" _); [now left|].
  destruct (_ || _); [|now left].
  destruct (_ && _); [right; now left | right; right; now left].
Qed.

(** X10. Every node of a returned tree has one of the three type tags
    individual, uk_company and non_uk_company. *)
Theorem node_types_closed (env : Env) fuel cn nm visited errors depth t v e :
  build_ownership_tree env fuel cn nm visited errors depth = Some (Returned t, v, e) ->
  Forall (fun n => In (type n) entity_types) (nodes t).
Proof.
  intros Hb. rewrite nodes_unfold. constructor.
  - destruct (build_root _ _ _ _ _ _ _ _ _ _ Hb) as [[_ ->] | [_ ->]];
      right; now left.
  - eapply Forall_impl; [exact (build_shape _ _ _ _ _ _ _ _ _ _ Hb)|].
    intros n [psc k _ _ | psc k number cs _ _ _ _ _];
      apply determine_entity_type_range.
Qed.

Lemma node_types_closed_witness :
  exists t v e,
    build_ownership_tree Scenario.plain 5 "001" "Acme Ltd" ∅ [] 0 = Some (Returned t, v, e)
    /\ length (nodes t) = 3
    /\ Forall (fun n => In (type n) entity_types) (nodes t).
Proof.
  eexists _, _, _. split; [vm_compute; reflexivity|]. split; [reflexivity|].
  eapply (node_types_closed Scenario.plain 5 "001" "Acme Ltd" ∅ [] 0).
  vm_compute. reflexivity.
Defined.

(** X12. The circular-reference mark never shows below the root: no
    node under the root of a returned tree carries the marker's error,
    since a caller adopts only the child list of the tree built for a
    company and drops that tree's root. *)
Theorem marker_never_below_root (env : Env) fuel cn nm visited errors depth t v e :
  build_ownership_tree env fuel cn nm visited errors depth = Some (Returned t, v, e) ->
  Forall (fun n => error n <> Some "Circular reference detected") (descendants t).
Proof.
  intros Hb. eapply Forall_impl; [exact (build_shape _ _ _ _ _ _ _ _ _ _ Hb)|].
  intros n Hn. now rewrite (shape_error _ _ Hn).
Qed.

Lemma marker_never_below_root_witness :
  exists t v e,
    build_ownership_tree Scenario.cycle 5 "001" "Acme Ltd" ∅ [] 0 = Some (Returned t, v, e)
    /\ length (descendants t) = 2
    /\ Forall (fun n => error n <> Some "Circular reference detected") (descendants t).
Proof.
  eexists _, _, _. split; [vm_compute; reflexivity|]. split; [reflexivity|].
  eapply (marker_never_below_root Scenario.cycle 5 "001" "Acme Ltd" ∅ [] 0).
  vm_compute. reflexivity.
Defined.

(** ** Paths *)

Lemma descend_ancestors (env : Env) idxs :
  forall fuel cn nm visited errors depth t v e anc n,
    build_ownership_tree env fuel cn nm visited errors depth = Some (Returned t, v, e) ->
    descend idxs t = Some (anc, n) ->
    NoDup anc /\ forall a, a ∈ anc -> a ∉ visited.
Proof.
  induction idxs as [|i rest IH];
    intros fuel cn nm visited errors depth t v e anc n Hb Hd.
  - injection Hd as <- _. split; [constructor | intros a Ha; inversion Ha].
  - simpl in Hd.
    destruct (children t !! i) as [ch|] eqn:Hi; [|discriminate].
    rewrite (build_company_number _ _ _ _ _ _ _ _ _ _ Hb) in Hd.
    destruct (descend rest ch) as [[anc' n']|] eqn:Hr; [|discriminate].
    injection Hd as <- ->.
    destruct (build_root _ _ _ _ _ _ _ _ _ _ Hb) as [[_ Ht] | [Hnv _]];
      [rewrite Ht in Hi; discriminate|].
    destruct rest as [|j rest'].
    + injection Hr as <- _. split.
      * apply NoDup_singleton.
      * intros a Ha. apply list_elem_of_singleton in Ha as ->. exact Hnv.
    + destruct (get_company_pscs_returns env cn) as [pscs Hf].
      pose proof (build_children _ _ _ _ _ _ _ _ _ _ _ Hb Hnv Hf) as Hall.
      destruct fuel as [|fuel]; [discriminate|]. cbn [pred] in Hall.
      destruct (Forall2_lookup_r _ _ _ _ _ Hall Hi) as (psc & _ & k & errs & errs' & Hx).
      apply expand_psc_inv in Hx
        as [(-> & _ & _) | (num & ct & v' & _ & _ & _ & Hbc & ->)];
        [discriminate|].
      rewrite (descend_children _ _ ct) in Hr;
        [| discriminate | reflexivity
         | cbn; symmetry; exact (build_company_number _ _ _ _ _ _ _ _ _ _ Hbc)].
      destruct (IH _ _ _ _ _ _ _ _ _ _ _ Hbc Hr) as [Hnd Hfresh].
      split.
      * constructor; [|exact Hnd]. intros Hin. apply Hfresh in Hin.
        apply Hin, elem_of_union_l, elem_of_singleton. reflexivity.
      * intros a Ha. apply elem_of_cons in Ha as [->|Ha]; [exact Hnv|].
        apply Hfresh in Ha. intros Hv. apply Ha, elem_of_union_r, Hv.
Qed.

Lemma descend_length (idxs : list nat) :
  forall t anc n, descend idxs t = Some (anc, n) -> length anc = length idxs.
Proof.
  induction idxs as [|i rest IH]; intros t anc n Hd.
  - now injection Hd as <- _.
  - simpl in Hd.
    destruct (children t !! i) as [ch|]; [|discriminate].
    destruct (company_number t); [|discriminate].
    destruct (descend rest ch) as [[anc' n']|] eqn:Hr; [|discriminate].
    injection Hd as <- _. simpl. f_equal. exact (IH _ _ _ Hr).
Qed.

(** X13. In a tree built from the empty set, the company numbers of the
    nodes passed on any path down from the root are pairwise distinct,
    one for each step; and a node whose own company number is among
    those of its ancestors has no children: the branch stops at the first
    repetition. *)
Theorem path_numbers_distinct (env : Env) fuel cn nm errors depth t v e idxs anc n :
  build_ownership_tree env fuel cn nm ∅ errors depth = Some (Returned t, v, e) ->
  descend idxs t = Some (anc, n) ->
  NoDup anc /\ length anc = length idxs
  /\ (forall number,
         company_number n = Some number -> number ∈ anc -> children n = []).
Proof.
  intros Hb Hd. split; [exact (proj1 (descend_ancestors env idxs _ _ _ _ _ _ _ _ _ _ _ Hb Hd))|].
  split; [exact (descend_length _ _ _ _ Hd)|].
  intros number Hnum Hin.
  assert (Hne : idxs <> []).
  { intros ->. injection Hd as <- _. inversion Hin. }
  destruct (descend_build env idxs _ _ _ _ _ _ _ _ _ _ _ _ Hb Hd Hne Hnum)
    as (errs & d & t' & v' & e' & Hb' & ->).
  destruct (build_root _ _ _ _ _ _ _ _ _ _ Hb') as [[_ ->] | [Hnv _]]; [reflexivity|].
  exfalso. apply Hnv, elem_of_union_r, elem_of_list_to_set, Hin.
Qed.

Lemma path_numbers_distinct_witness :
  exists t v e n,
    build_ownership_tree Scenario.cycle 5 "001" "Acme Ltd" ∅ [] 0 = Some (Returned t, v, e)
    /\ descend [0; 0] t = Some (["001"; "002"], n)
    /\ company_number n = Some "001"
    /\ NoDup ["001"; "002"] /\ length ["001"; "002"] = length [0; 0]
    /\ (forall number,
           company_number n = Some number -> number ∈ ["001"; "002"] -> children n = []).
Proof.
  eexists _, _, _, _. split; [vm_compute; reflexivity|].
  split; [vm_compute; reflexivity|]. split; [reflexivity|].
  eapply (path_numbers_distinct Scenario.cycle 5 "001" "Acme Ltd" [] 0 _ _ _ [0; 0]).
  - vm_compute. reflexivity.
  - vm_compute. reflexivity.
Defined.

(** ** Node identifiers *)

Lemma str_of_nat_inj (a b : nat) : Py.str_of_nat a = Py.str_of_nat b -> a = b.
Proof.
  unfold Py.str_of_nat. intros H.
  apply (f_equal NilEmpty.uint_of_string) in H. rewrite !NilEmpty.usu in H.
  injection H as H. apply (f_equal Nat.of_uint) in H.
  now rewrite !DecimalNat.Unsigned.of_to in H.
Qed.

Lemma links_self_default (psc : Psc.t) (dflt : string) :
  Psc.links_self psc dflt = default dflt (self_link psc).
Proof. unfold Psc.links_self, self_link. now destruct (Psc.links psc). Qed.

Lemma expand_psc_id (self : builder) psc node visited errors depth node' errors' :
  expand_psc self psc node visited errors depth = Some (node', errors') ->
  id node' = id node.
Proof.
  unfold expand_psc.
  destruct (String.eqb _ _); [|now intros [= <- _]].
  destruct (Py.truthy _); [|now intros [= <- _]].
  destruct (self _ _ _ _ _) as [[[[ct|ex] v] e]|]; [| |discriminate];
    now intros [= <- _].
Qed.

Lemma process_pscs_ids (self : builder) pscs root visited errors depth root' errors' :
  process_pscs self pscs root visited errors depth = Some (root', errors') ->
  exists new,
    children root' = (children root ++ new)%list
    /\ forall k node,
        new !! k = Some node ->
        exists psc,
          filter not_ceased pscs !! k = Some psc
          /\ id node = Psc.links_self psc
                         ("psc_" +:+ Py.str_of_nat (length (children root) + k)).
Proof.
  revert root errors. induction pscs as [|psc rest IH]; intros root errors; simpl.
  - intros [= <- _]. exists []. split; [now rewrite app_nil_r | intros k node H; discriminate].
  - destruct (Psc.ceased_on psc) as [d|] eqn:Hc.
    + rewrite filter_cons_False by (unfold not_ceased; congruence). apply IH.
    + rewrite filter_cons_True by exact Hc.
      destruct (expand_psc _ _ _ _ _ _) as [[node errs]|] eqn:Hx; [|discriminate].
      intros H. apply IH in H as (new & Hch & Hids).
      apply expand_psc_id in Hx. cbn [id new_psc_node] in Hx.
      exists (node :: new). split.
      * rewrite Hch. cbn [children append_child set_children]. now rewrite <- app_assoc.
      * intros [|k] nd Hk.
        -- injection Hk as <-. exists psc. split; [reflexivity|].
           now rewrite Nat.add_0_r.
        -- destruct (Hids k nd Hk) as (p & Hp & Hid). exists p. split; [exact Hp|].
           rewrite Hid. cbn [children append_child set_children].
           rewrite length_app. cbn [length]. do 3 f_equal. lia.
Qed.

Lemma build_child_ids (env : Env) fuel cn nm visited errors depth t v e pscs :
  build_ownership_tree env fuel cn nm visited errors depth = Some (Returned t, v, e) ->
  cn ∉ visited ->
  get_company_pscs env cn = Returned pscs ->
  forall k node,
    children t !! k = Some node ->
    exists psc,
      filter not_ceased pscs !! k = Some psc
      /\ id node = Psc.links_self psc ("psc_" +:+ Py.str_of_nat k).
Proof.
  destruct fuel as [|fuel]; [discriminate|]. rewrite build_S.
  intros Hb Hnv Hf. rewrite bool_decide_eq_false_2 in Hb by assumption.
  rewrite Hf in Hb.
  destruct (process_pscs _ _ _ _ _ _) as [[r e']|] eqn:Hp; [|discriminate].
  injection Hb as <- _ _.
  apply process_pscs_ids in Hp as (new & Hch & Hids). cbn in Hch. rewrite Hch.
  exact Hids.
Qed.

(** X14. The child at position [k] of a company's node is made from the
    [k]-th of the company's records still in effect, and its id is that
    record's self link when it has one and "psc_" followed by [k] in
    decimal otherwise; so two children at different positions whose
    records have no self link have different ids. *)
Theorem child_ids_by_position (env : Env) fuel cn nm visited errors depth t v e pscs :
  build_ownership_tree env fuel cn nm visited errors depth = Some (Returned t, v, e) ->
  cn ∉ visited ->
  get_company_pscs env cn = Returned pscs ->
  (forall k node,
      children t !! k = Some node ->
      exists psc,
        filter not_ceased pscs !! k = Some psc
        /\ id node = default ("psc_" +:+ Py.str_of_nat k) (self_link psc))
  /\ (forall k1 k2 n1 n2 p1 p2,
         children t !! k1 = Some n1 -> children t !! k2 = Some n2 ->
         filter not_ceased pscs !! k1 = Some p1 ->
         filter not_ceased pscs !! k2 = Some p2 ->
         self_link p1 = None -> self_link p2 = None ->
         k1 <> k2 -> id n1 <> id n2).
Proof.
  intros Hb Hnv Hf.
  pose proof (build_child_ids _ _ _ _ _ _ _ _ _ _ _ Hb Hnv Hf) as Hids.
  split.
  - intros k node Hk. destruct (Hids k node Hk) as (psc & Hp & Hid).
    exists psc. split; [exact Hp|]. now rewrite <- links_self_default.
  - intros k1 k2 n1 n2 p1 p2 H1 H2 Hp1 Hp2 Hs1 Hs2 Hne Heq.
    destruct (Hids k1 n1 H1) as (q1 & Hq1 & Hid1).
    destruct (Hids k2 n2 H2) as (q2 & Hq2 & Hid2).
    rewrite Hp1 in Hq1. injection Hq1 as <-.
    rewrite Hp2 in Hq2. injection Hq2 as <-.
    rewrite links_self_default, Hs1 in Hid1. rewrite links_self_default, Hs2 in Hid2.
    cbn in Hid1, Hid2. rewrite Hid1, Hid2 in Heq.
    injection Heq as Heq. now apply str_of_nat_inj in Heq.
Qed.

Lemma child_ids_by_position_witness :
  exists t v e pscs,
    build_ownership_tree Scenario.three_people 5 "001" "Acme Ltd" ∅ [] 0
    = Some (Returned t, v, e)
    /\ get_company_pscs Scenario.three_people "001" = Returned pscs
    /\ map id (children t) = ["psc_0"; "psc_1"; "/company/001/psc/di"]
    /\ (forall k node,
          children t !! k = Some node ->
          exists psc,
            filter not_ceased pscs !! k = Some psc
            /\ id node = default ("psc_" +:+ Py.str_of_nat k) (self_link psc))
    /\ (forall k1 k2 n1 n2 p1 p2,
           children t !! k1 = Some n1 -> children t !! k2 = Some n2 ->
           filter not_ceased pscs !! k1 = Some p1 ->
           filter not_ceased pscs !! k2 = Some p2 ->
           self_link p1 = None -> self_link p2 = None ->
           k1 <> k2 -> id n1 <> id n2).
Proof.
  eexists _, _, _, _. split; [vm_compute; reflexivity|].
  split; [vm_compute; reflexivity|]. split; [reflexivity|].
  eapply (child_ids_by_position Scenario.three_people 5 "001" "Acme Ltd" ∅ [] 0).
  - vm_compute. reflexivity.
  - apply not_elem_of_empty.
  - vm_compute. reflexivity.
Defined.

(** ** Arguments the builder does not read *)

Lemma expand_psc_depth (self : builder) psc node visited errors d1 d2 :
  (forall cn nm vs es a b, self cn nm vs es a = self cn nm vs es b) ->
  expand_psc self psc node visited errors d1 = expand_psc self psc node visited errors d2.
Proof.
  intros Hself. unfold expand_psc.
  destruct (String.eqb _ _); [|reflexivity].
  destruct (Py.truthy _); [|reflexivity].
  now rewrite (Hself _ _ _ _ (d1 + 1) (d2 + 1)).
Qed.

Lemma process_pscs_depth (self : builder) pscs root visited errors d1 d2 :
  (forall cn nm vs es a b, self cn nm vs es a = self cn nm vs es b) ->
  process_pscs self pscs root visited errors d1 = process_pscs self pscs root visited errors d2.
Proof.
  intros Hself. revert root errors.
  induction pscs as [|psc rest IH]; intros root errors; simpl; [reflexivity|].
  destruct (Psc.ceased_on psc); [apply IH|].
  rewrite (expand_psc_depth self _ _ _ _ d1 d2 Hself).
  destruct (expand_psc _ _ _ _ _ _) as [[node errs]|]; [apply IH | reflexivity].
Qed.

(** X15. The depth argument is passed down and never read: the builder
    returns the same result for any two depths, so no depth stops the
    recursion. *)
Theorem depth_never_read (env : Env) fuel cn nm visited errors d1 d2 :
  build_ownership_tree env fuel cn nm visited errors d1
  = build_ownership_tree env fuel cn nm visited errors d2.
Proof.
  revert cn nm visited errors d1 d2.
  induction fuel as [|fuel IH]; intros cn nm visited errors d1 d2; [reflexivity|].
  rewrite !build_S. case_bool_decide; [reflexivity|].
  destruct (get_company_pscs env cn) as [pscs|]; [|reflexivity].
  now rewrite (process_pscs_depth _ _ _ _ _ d1 d2 IH).
Qed.

Lemma expand_psc_errors (self : builder) psc node visited errors depth node' errors' :
  (forall cn nm vs es d o v e,
      self cn nm vs es d = Some (o, v, e) -> (exists t, o = Returned t) /\ e = es) ->
  expand_psc self psc node visited errors depth = Some (node', errors') ->
  errors' = errors.
Proof.
  intros Hself. unfold expand_psc.
  destruct (String.eqb _ _); [|now intros [= _ <-]].
  destruct (Py.truthy _); [|now intros [= _ <-]].
  destruct (self _ _ _ _ _) as [[[o v] e]|] eqn:Hs; [|discriminate].
  destruct (Hself _ _ _ _ _ _ _ _ Hs) as [[t ->] ->]. now intros [= _ <-].
Qed.

Lemma process_pscs_errors (self : builder) pscs root visited errors depth root' errors' :
  (forall cn nm vs es d o v e,
      self cn nm vs es d = Some (o, v, e) -> (exists t, o = Returned t) /\ e = es) ->
  process_pscs self pscs root visited errors depth = Some (root', errors') ->
  errors' = errors.
Proof.
  intros Hself. revert root errors.
  induction pscs as [|psc rest IH]; intros root errors; simpl; [now intros [= _ <-]|].
  destruct (Psc.ceased_on psc); [apply IH|].
  destruct (expand_psc _ _ _ _ _ _) as [[node errs]|] eqn:Hx; [|discriminate].
  apply expand_psc_errors in Hx as ->; [apply IH | exact Hself].
Qed.

Lemma build_errors (env : Env) fuel cn nm visited errors depth o v e :
  build_ownership_tree env fuel cn nm visited errors depth = Some (o, v, e) ->
  e = errors.
Proof.
  revert cn nm visited errors depth o v e.
  induction fuel as [|fuel IH]; intros cn nm visited errors depth o v e; [discriminate|].
  rewrite build_S. case_bool_decide; [now intros [= _ _ <-]|].
  destruct (get_company_pscs_returns env cn) as [pscs ->].
  destruct (process_pscs _ _ _ _ _ _) as [[r e']|] eqn:Hp; [|discriminate].
  intros [= _ _ <-]. eapply process_pscs_errors; [|exact Hp].
  intros c n' vs es d o' v' e'' Hb. split; [exact (build_returns _ _ _ _ _ _ _ _ _ _ Hb)|].
  exact (IH _ _ _ _ _ _ _ _ Hb).
Qed.

(** X16. The errors list is only appended to and never read: the list a
    call returns is the list it was given followed by the messages it
    added, and with any other list the call returns the same tree and the
    same set, followed by the same messages. *)
Theorem errors_write_only (env : Env) fuel cn nm visited e1 depth o v e1' :
  build_ownership_tree env fuel cn nm visited e1 depth = Some (o, v, e1') ->
  exists added,
    e1' = (e1 ++ added)%list
    /\ forall e2,
        build_ownership_tree env fuel cn nm visited e2 depth
        = Some (o, v, (e2 ++ added)%list).
Proof.
  intros Hb. exists []. rewrite app_nil_r. split; [exact (build_errors _ _ _ _ _ _ _ _ _ _ Hb)|].
  intros e2. rewrite app_nil_r.
  destruct (build_blind env fuel _ _ _ _ _ _ _ _ Hb e2 depth) as [e2' He2].
  now rewrite He2, (build_errors _ _ _ _ _ _ _ _ _ _ He2).
Qed.

Lemma errors_write_only_witness :
  exists o v e1',
    build_ownership_tree Scenario.diamond 5 "001" "Acme Ltd" ∅ ["earlier"] 0
    = Some (o, v, e1')
    /\ exists added,
        e1' = (["earlier"] ++ added)%list
        /\ forall e2,
            build_ownership_tree Scenario.diamond 5 "001" "Acme Ltd" ∅ e2 0
            = Some (o, v, (e2 ++ added)%list).
Proof.
  eexists _, _, _. split; [vm_compute; reflexivity|].
  eapply (errors_write_only Scenario.diamond 5 "001" "Acme Ltd" ∅ ["earlier"] 0).
  vm_compute. reflexivity.
Defined.

(** X17. A search that fails in transport or is answered with a status
    other than 200 finds no company, and the request is answered 404
    "not found" with the query in the detail. *)
Theorem search_failure_not_found (env : Env) (text : string) (fuel : nat) (q : string) :
  (exists msg, search_endpoint env q = TransportError msg)
  \/ (exists status items, search_endpoint env q = Response status items /\ status <> 200) ->
  search_company_by_name env q = Returned None
  /\ get_ownership_structure env text fuel q
     = Some (HttpError 404 ("Company '" +:+ q +:+ "' not found")).
Proof.
  intros Hfail.
  assert (Hs : search_company_by_name env q = Returned None).
  { unfold search_company_by_name, search_company_by_name_try.
    destruct (get_auth_headers env); [|reflexivity].
    destruct Hfail as [[msg ->] | (status & items & -> & Hne)]; [reflexivity|].
    apply Nat.eqb_neq in Hne. now rewrite Hne. }
  split; [exact Hs|]. unfold get_ownership_structure. now rewrite Hs.
Qed.

Lemma search_failure_not_found_witness :
  search_company_by_name
    (mkEnv (Some "key") (fun _ => Response 404 None) (fun _ => Response 503 None)) "acme"
  = Returned None
  /\ get_ownership_structure
       (mkEnv (Some "key") (fun _ => Response 404 None) (fun _ => Response 503 None))
       "" 5 "acme"
     = Some (HttpError 404 ("Company '" +:+ "acme" +:+ "' not found")).
Proof.
  apply (search_failure_not_found
           (mkEnv (Some "key") (fun _ => Response 404 None) (fun _ => Response 503 None))
           "" 5 "acme").
  right. exists 503, None. split; [reflexivity | discriminate].
Defined.

(** ** Every node and its own record *)

Lemma child_of_made_from (env : Env) fuel visited depth psc node :
  child_of (build_ownership_tree env fuel) visited depth psc node ->
  made_from psc node.
Proof.
  intros (k & errs & errs' & Hx). exists k.
  apply expand_psc_inv in Hx
    as [(-> & _ & _) | (number & ct & v' & Hty & Hnum & Hne & _ & ->)];
    [now left | right]. now exists number, (children ct).
Qed.

(** A node with children carries a company number. *)
Lemma build_numbered (env : Env) fuel cn nm visited errors depth t v e :
  build_ownership_tree env fuel cn nm visited errors depth = Some (Returned t, v, e) ->
  forall m, m ∈ nodes t -> children m <> [] -> is_Some (company_number m).
Proof.
  intros Hb m Hm Hch. rewrite nodes_unfold in Hm. apply elem_of_cons in Hm as [->|Hm].
  - rewrite (build_company_number _ _ _ _ _ _ _ _ _ _ Hb). eauto.
  - pose proof (build_shape _ _ _ _ _ _ _ _ _ _ Hb) as Hshape.
    rewrite Forall_forall in Hshape.
    destruct (shape_children _ _ (Hshape m Hm)) as [Hnil | (_ & number & _ & ->)];
      [contradiction | eauto].
Qed.

(** Every node below the root sits at some position: it is a child of a
    node that a path of child positions reaches. *)
Lemma descendant_position (t : PSCNode) :
  (forall m, m ∈ nodes t -> children m <> [] -> is_Some (company_number m)) ->
  forall n, n ∈ descendants t ->
    exists idxs anc parent i,
      descend idxs t = Some (anc, parent) /\ children parent !! i = Some n.
Proof.
  induction t as [t IH] using PSCNode_children_ind. intros Hnum n Hn.
  unfold descendants in Hn.
  apply list_elem_of_In, in_flat_map in Hn as (c & Hc & Hnc).
  apply list_elem_of_In in Hc. apply list_elem_of_In in Hnc.
  destruct (proj1 (list_elem_of_lookup _ _) Hc) as [i0 Hi0].
  rewrite nodes_unfold in Hnc. apply elem_of_cons in Hnc as [->|Hnc].
  - exists [], [], t, i0. split; [reflexivity | exact Hi0].
  - rewrite Forall_forall in IH.
    destruct (IH c Hc) with (n := n) as (idxs & anc & parent & i & Hd & Hi);
      [|exact Hnc|].
    + intros m Hm. apply Hnum. rewrite nodes_unfold. right.
      unfold descendants. apply list_elem_of_In, in_flat_map.
      exists c. split; now apply list_elem_of_In.
    + destruct (Hnum t) as [number Hnumber].
      * rewrite nodes_unfold. left.
      * intros Hnil. rewrite Hnil in Hi0. discriminate.
      * exists (i0 :: idxs), (number :: anc), parent, i. split; [|exact Hi].
        simpl. now rewrite Hi0, Hnumber, Hd.
Qed.

(** The child at position [i] of a node reached from the root is made
    from the [i]-th record still in effect of the company whose number
    that node carries. *)
Lemma own_record (env : Env) fuel cn nm visited errors depth t v e idxs anc parent i n :
  build_ownership_tree env fuel cn nm visited errors depth = Some (Returned t, v, e) ->
  descend idxs t = Some (anc, parent) ->
  children parent !! i = Some n ->
  exists number pscs psc,
    company_number parent = Some number
    /\ get_company_pscs env number = Returned pscs
    /\ filter not_ceased pscs !! i = Some psc
    /\ made_from psc n.
Proof.
  intros Hb Hd Hi.
  assert (exists fuel' number nm' vs errs d t' v' e',
             build_ownership_tree env fuel' number nm' vs errs d = Some (Returned t', v', e')
             /\ children parent = children t'
             /\ company_number parent = Some number)
    as (fuel' & number & nm' & vs & errs & d & t' & v' & e' & Hb' & Hch & Hnum).
  { destruct idxs as [|j rest].
    - injection Hd as _ <-.
      exists fuel, cn, nm, visited, errors, depth, t, v, e.
      split; [exact Hb|]. split; [reflexivity|].
      exact (build_company_number _ _ _ _ _ _ _ _ _ _ Hb).
    - assert (Hne : j :: rest <> []) by discriminate.
      destruct (build_numbered _ _ _ _ _ _ _ _ _ _ Hb parent) as [number Hnum].
      + rewrite nodes_unfold. right. eapply descend_descendant; eassumption.
      + intros Hnil. rewrite Hnil in Hi. discriminate.
      + destruct (descend_build env _ _ _ _ _ _ _ _ _ _ _ _ _ Hb Hd Hne Hnum)
          as (errs & d & t' & v' & e' & Hb' & Hch).
        exists fuel, number, (name parent), (visited ∪ list_to_set anc), errs, d, t', v', e'.
        auto. }
  rewrite Hch in Hi.
  destruct (build_root _ _ _ _ _ _ _ _ _ _ Hb') as [[_ Ht] | [Hnv _]];
    [rewrite Ht in Hi; discriminate|].
  destruct (get_company_pscs_returns env number) as [pscs Hf].
  pose proof (build_children _ _ _ _ _ _ _ _ _ _ _ Hb' Hnv Hf) as Hall.
  destruct (Forall2_lookup_r _ _ _ _ _ Hall Hi) as (psc & Hpsc & Hchild).
  exists number, pscs, psc. repeat split; try assumption.
  exact (child_of_made_from _ _ _ _ _ _ Hchild).
Qed.

Lemma made_from_name (psc : Psc.t) (n : PSCNode) :
  made_from psc n -> name n = Py.strip (psc_display_name psc).
Proof. now intros (k & [-> | (number & cs & _ & _ & _ & ->)]). Qed.

(** C9, as amended. Every node below the root of a built tree sits at a
    position (a child position under a node that a path from the root
    reaches), and the node at a position carries the trimmed display name
    of its own record, the record at that position among the records
    still in effect of the company whose number its parent carries: the
    record's name field when that is non-empty, its forename, a space and
    its surname otherwise. The name has no whitespace at either end, and
    it is empty exactly when the display name is all whitespace. The root
    carries the name it was given, with the circular-reference suffix
    exactly when its company was already in the set. *)
Theorem node_names (env : Env) fuel cn nm visited errors depth t v e :
  build_ownership_tree env fuel cn nm visited errors depth = Some (Returned t, v, e) ->
  (cn ∈ visited -> name t = nm +:+ " (circular reference)")
  /\ (cn ∉ visited -> name t = nm)
  /\ (forall n, n ∈ descendants t ->
        exists idxs anc parent i,
          descend idxs t = Some (anc, parent) /\ children parent !! i = Some n)
  /\ (forall idxs anc parent i n,
         descend idxs t = Some (anc, parent) ->
         children parent !! i = Some n ->
         exists number pscs psc,
           company_number parent = Some number
           /\ get_company_pscs env number = Returned pscs
           /\ filter not_ceased pscs !! i = Some psc
           /\ name n = Py.strip (psc_display_name psc)
           /\ Py.lstrip (name n) = name n
           /\ Py.rstrip (name n) = name n
           /\ (name n = "" <-> Py.all_space (psc_display_name psc) = true)).
Proof.
  intros Hb. split_and!.
  - intros Hin. destruct (build_root _ _ _ _ _ _ _ _ _ _ Hb) as [[_ ->] | [Hnin _]];
      [reflexivity | contradiction].
  - intros Hnin. destruct (build_root _ _ _ _ _ _ _ _ _ _ Hb) as [[Hin _] | [_ ->]];
      [contradiction | reflexivity].
  - apply descendant_position. exact (build_numbered _ _ _ _ _ _ _ _ _ _ Hb).
  - intros idxs anc parent i n Hd Hi.
    destruct (own_record _ _ _ _ _ _ _ _ _ _ _ _ _ _ _ Hb Hd Hi)
      as (number & pscs & psc & Hnum & Hf & Hpsc & Hmade).
    exists number, pscs, psc. apply made_from_name in Hmade. rewrite Hmade.
    destruct (strip_trimmed (psc_display_name psc)) as [Hl Hr].
    split_and!; try assumption; try reflexivity. apply strip_empty.
Qed.

Lemma node_names_witness :
  exists t v e,
    build_ownership_tree Scenario.plain 5 "001" "Acme Ltd" ∅ [] 0 = Some (Returned t, v, e)
    /\ map name (children t) = ["Jane Doe"; "Holding Ltd"]
    /\ ("001" ∈ (∅ : gset string) -> name t = "Acme Ltd" +:+ " (circular reference)")
    /\ ("001" ∉ (∅ : gset string) -> name t = "Acme Ltd")
    /\ (forall n, n ∈ descendants t ->
          exists idxs anc parent i,
            descend idxs t = Some (anc, parent) /\ children parent !! i = Some n)
    /\ (forall idxs anc parent i n,
           descend idxs t = Some (anc, parent) ->
           children parent !! i = Some n ->
           exists number pscs psc,
             company_number parent = Some number
             /\ get_company_pscs Scenario.plain number = Returned pscs
             /\ filter not_ceased pscs !! i = Some psc
             /\ name n = Py.strip (psc_display_name psc)
             /\ Py.lstrip (name n) = name n
             /\ Py.rstrip (name n) = name n
             /\ (name n = "" <-> Py.all_space (psc_display_name psc) = true)).
Proof.
  eexists _, _, _. split; [vm_compute; reflexivity|]. split; [reflexivity|].
  eapply (node_names Scenario.plain 5 "001" "Acme Ltd" ∅ [] 0).
  vm_compute. reflexivity.
Defined.

(** X11. Below the root, a node carries a company number only when its
    type is uk_company, and then the number is the non-empty registration
    number of the node's own record: every node below the root sits at a
    child position under a node that a path from the root reaches, and
    the number of the node at a position is the registration number of
    the record at that position among the records still in effect of the
    company whose number its parent carries, a record the classifier
    types uk_company. *)
Theorem company_number_from_registration (env : Env) fuel cn nm visited errors depth t v e :
  build_ownership_tree env fuel cn nm visited errors depth = Some (Returned t, v, e) ->
  (forall n, n ∈ descendants t ->
     exists idxs anc parent i,
       descend idxs t = Some (anc, parent) /\ children parent !! i = Some n)
  /\ forall idxs anc parent i n number,
      descend idxs t = Some (anc, parent) ->
      children parent !! i = Some n ->
      company_number n = Some number ->
      type n = "uk_company" /\ number <> ""
      /\ exists parent_number pscs psc,
          company_number parent = Some parent_number
          /\ get_company_pscs env parent_number = Returned pscs
          /\ filter not_ceased pscs !! i = Some psc
          /\ Psc.identification_get Psc.registration_number psc = Some number
          /\ determine_entity_type psc = "uk_company".
Proof.
  intros Hb. split.
  { apply descendant_position. exact (build_numbered _ _ _ _ _ _ _ _ _ _ Hb). }
  intros idxs anc parent i n number Hd Hi Hn.
  destruct (own_record _ _ _ _ _ _ _ _ _ _ _ _ _ _ _ Hb Hd Hi)
    as (pnum & pscs & psc & Hnum & Hf & Hpsc & k & [-> | (num & cs & Hty & Hreg & Hne & ->)]).
  - discriminate.
  - cbn in Hn. injection Hn as <-. cbn. split; [exact Hty|]. split; [exact Hne|].
    exists pnum, pscs, psc. auto.
Qed.

Lemma company_number_from_registration_witness :
  exists n,
    build_ownership_tree Scenario.diamond 5 "001" "Acme Ltd" ∅ [] 0
    = Some (Returned Scenario.diamond_tree, {["001"]}, [])
    /\ descend [1] Scenario.diamond_tree = Some (["001"], n)
    /\ type n = "uk_company" /\ "003" <> ""
    /\ exists parent_number pscs psc,
        company_number Scenario.diamond_tree = Some parent_number
        /\ get_company_pscs Scenario.diamond parent_number = Returned pscs
        /\ filter not_ceased pscs !! 1 = Some psc
        /\ Psc.identification_get Psc.registration_number psc = Some "003"
        /\ determine_entity_type psc = "uk_company".
Proof.
  eexists. split; [vm_compute; reflexivity|].
  split; [vm_compute; reflexivity|].
  assert (Hb : build_ownership_tree Scenario.diamond 5 "001" "Acme Ltd" ∅ [] 0
               = Some (Returned Scenario.diamond_tree, {["001"]}, []))
    by (vm_compute; reflexivity).
  destruct (company_number_from_registration Scenario.diamond 5 "001" "Acme Ltd" ∅ [] 0
              _ _ _ Hb) as [_ Hpos].
  apply (Hpos [] [] _ 1 _ "003"); reflexivity.
Defined.
